(** * Active Domain Randomization: the SVPG adapter and the reward generator

    A shallow embedding of [Pyrado/pyrado/algorithms/meta/adr.py]:
    the parameter-search environment adapter [SVPGAdapter], the
    discriminator wrapper [RewardGenerator] and [preprocess_rollout].

    Conventions of the embedding.
    - A numpy/torch floating point number is a [float]: a rational, one of
      the two infinities, or NaN. Arithmetic on rationals is exact (rounding
      and overflow are not modelled); the special values follow IEEE 754 as
      numpy implements it.
    - A one-dimensional array is a [list float], the particle matrix a list
      of rows; indexing follows numpy (negative indices count from the end, an
      index out of range raises [IndexError]).
    - Python objects are mutated in place; a method is a function from the
      state before the call to an outcome (value or raised exception) and the
      state after it, so that a mutation made before a [raise] stays
      visible. *)

From Stdlib Require Import QArith Lqa ZArith Lia.
From stdpp Require Import base option list gmap strings.

Local Open Scope Z_scope.

(** ** Exceptions and the state-and-exception monad *)

Inductive PyExc : Type :=
| NotImplementedError (msg : string)
| IndexError
| ValueError
| KeyError (key : string)
| AttributeError (attr : string)
| AssertionError
| RuntimeError
| TypeErr.

Inductive Result (A : Type) : Type :=
| Ok (a : A)
| Raise (e : PyExc).
Arguments Ok {A} a.
Arguments Raise {A} e.

Definition M (S A : Type) : Type := S -> Result A * S.

Definition ret {S A} (a : A) : M S A := fun s => (Ok a, s).
Definition raise {S A} (e : PyExc) : M S A := fun s => (Raise e, s).
Definition bind {S A B} (m : M S A) (k : A -> M S B) : M S B :=
  fun s => match m s with
           | (Ok a, s') => k a s'
           | (Raise e, s') => (Raise e, s')
           end.
Definition get {S} : M S S := fun s => (Ok s, s).
Definition modify {S} (f : S -> S) : M S unit := fun s => (Ok tt, f s).
Definition lift {S A} (r : Result A) : M S A := fun s => (r, s).

Declare Scope py_scope.
Delimit Scope py_scope with py.
Notation "'let*' x ':=' m 'in' k" := (bind m (fun x => k))
  (at level 10, x pattern, m at level 100, k at level 200) : py_scope.
Notation "m ';;' k" := (bind m (fun _ => k))
  (at level 100, k at level 200, right associativity) : py_scope.

(** A list comprehension [[f x for x in xs]] whose element may raise. *)
Fixpoint map_result {A B} (f : A -> Result B) (xs : list A) : Result (list B) :=
  match xs with
  | [] => Ok []
  | x :: xs' =>
      match f x with
      | Raise e => Raise e
      | Ok y => match map_result f xs' with
                | Raise e => Raise e
                | Ok ys => Ok (y :: ys)
                end
      end
  end.

(** ** Floating point numbers

    The values of a numpy float: the numbers and the three special values.
    [Num 0] stands for both zeros. *)

Inductive float : Type :=
| Num (q : Q)
| PInf
| NInf
| NaN.

(** Comparison of two floats; NaN is unordered with everything, itself
    included. *)
Definition fcompare (x y : float) : option comparison :=
  match x, y with
  | NaN, _ | _, NaN => None
  | Num a, Num b => Some (a ?= b)%Q
  | PInf, PInf | NInf, NInf => Some Eq
  | NInf, _ | _, PInf => Some Lt
  | PInf, _ | _, NInf => Some Gt
  end.

(** [x <= y], false as soon as one side is NaN. *)
Definition fle (x y : float) : Prop :=
  match fcompare x y with
  | Some Lt | Some Eq => True
  | _ => False
  end.

Definition fopp (x : float) : float :=
  match x with
  | Num a => Num (- a)
  | PInf => NInf
  | NInf => PInf
  | NaN => NaN
  end.

(** [x + y]: NaN is absorbing, and so is the sum of the two infinities. *)
Definition fadd (x y : float) : float :=
  match x, y with
  | NaN, _ | _, NaN => NaN
  | Num a, Num b => Num (a + b)
  | PInf, NInf | NInf, PInf => NaN
  | PInf, _ | _, PInf => PInf
  | NInf, _ | _, NInf => NInf
  end.

Definition fsub (x y : float) : float := fadd x (fopp y).

(** An infinity times the number [a]: [0 * inf] is NaN. *)
Definition scale_inf (a : Q) (inf : float) : float :=
  match (a ?= 0)%Q with
  | Eq => NaN
  | Gt => inf
  | Lt => fopp inf
  end.

Definition fmul (x y : float) : float :=
  match x, y with
  | NaN, _ | _, NaN => NaN
  | Num a, Num b => Num (a * b)
  | Num a, inf | inf, Num a => scale_inf a inf
  | PInf, PInf | NInf, NInf => PInf
  | PInf, NInf | NInf, PInf => NInf
  end.

(** [x / n] for a count [n]: numpy divides by zero without raising, [0 / 0]
    is NaN and a nonzero number over zero an infinity. *)
Definition fdiv_count (x : float) (n : nat) : float :=
  match x, n with
  | Num a, O => scale_inf a PInf
  | Num a, S _ => Num (a / inject_Z (Z.of_nat n))
  | _, _ => x
  end.

(** [np.isnan] and [np.isfinite]. *)
Definition isnan (x : float) : bool :=
  match x with
  | NaN => true
  | _ => false
  end.

Definition isfinite (x : float) : bool :=
  match x with
  | Num _ => true
  | _ => false
  end.

Declare Scope np_scope.
Delimit Scope np_scope with np.
Infix "+" := fadd : np_scope.
Infix "-" := fsub : np_scope.
Infix "*" := fmul : np_scope.

(** ** numpy helpers *)

(** [np.maximum] and [np.minimum] propagate NaN. *)
Definition np_maximum (x y : float) : float :=
  match fcompare x y with
  | None => NaN
  | Some Lt => y
  | Some _ => x
  end.

Definition np_minimum (x y : float) : float :=
  match fcompare x y with
  | None => NaN
  | Some Gt => y
  | Some _ => x
  end.

(** [np.clip(x, lo, hi)] is [minimum(hi, maximum(x, lo))]. *)
Definition clip (lo hi x : float) : float := np_minimum hi (np_maximum x lo).
Definition np_clip (lo hi : float) (v : list float) : list float :=
  map (clip lo hi) v.

(** A float in the closed unit interval (NaN is not). *)
Definition in_unit (x : float) : Prop := fle (Num 0) x /\ fle x (Num 1).

(** A number of the half-open interval from 0 to 1, the range of
    [random_sample]. *)
Definition in_half_open_unit (x : float) : Prop :=
  match x with
  | Num q => (0 <= q)%Q /\ (q < 1)%Q
  | _ => False
  end.

(** Binary operation on two one-dimensional arrays with broadcasting: equal
    lengths combine element by element, a length-one operand is stretched,
    anything else is a shape mismatch. *)
Definition broadcast (f : float -> float -> float) (x y : list float)
    : Result (list float) :=
  if decide (length x = length y) then Ok (zip_with f x y)
  else match x, y with
       | [a], _ => Ok (map (f a) y)
       | _, [b] => Ok (map (fun a => f a b) x)
       | _, _ => Raise ValueError
       end.

(** The value stored by [m[i] = val] in a row of the width of [row]. *)
Definition assign_row {A} (row val : list A) : Result (list A) :=
  if decide (length val = length row) then Ok val
  else match val with
       | [a] => Ok (replicate (length row) a)
       | _ => Raise ValueError
       end.

(** Position addressed by the integer index [i] in a sequence of length [n]. *)
Definition np_index (n : nat) (i : Z) : Result nat :=
  if decide (0 <= i < Z.of_nat n) then Ok (Z.to_nat i)
  else if decide (- Z.of_nat n <= i < 0) then Ok (Z.to_nat (i + Z.of_nat n))
  else Raise IndexError.

Definition getitem {A} (l : list A) (i : Z) : Result A :=
  match np_index (length l) i with
  | Raise e => Raise e
  | Ok n => match l !! n with
            | Some x => Ok x
            | None => Raise IndexError
            end
  end.

(** [float % int == 0] on numpy scalars: a zero divisor gives NaN, which is
    not equal to zero; otherwise the remainder has the sign of the divisor. *)
Definition np_mod_is_zero (c h : Z) : bool :=
  if h =? 0 then false else (c mod h =? 0).

(** [np.mean] of a list of numbers: their sum over their count, which is
    NaN on the empty list. *)
Definition np_mean (xs : list float) : float :=
  fdiv_count (fold_right fadd (Num 0) xs) (length xs).

(** ** Data model *)

(** Modelled from the spec: [DomainParam] (its class is not part of the
    sources at hand) is a name together with a scalar weighting; the adapter
    only reads the name. *)
Record DomainParam : Type := {
  name : string;
  weight : float;
}.

(** A trajectory: [observations] and [actions] stand for what
    [get_data_values] returns for these two keys, one row per time step. *)
Record StepSequence : Type := {
  observations : list (list float);
  actions : list (list float);
  rewards : list float;
}.

(** The dynamically typed values that can be handed to
    [preprocess_rollout]. *)
#[warnings="-register-all"]
Inductive PyObj : Type :=
| PyNone
| PyNum (q : float)
| PyStr (s : string)
| PyArray (v : list float)
| PyList (l : list PyObj)
| PyStepSequence (ro : StepSequence).

(** ** [preprocess_rollout] *)

(** [t.narrow(0, 0, n)]: the first [n] rows, an error when there are fewer. *)
Definition narrow0 {A} (t : list A) (n : nat) : Result (list A) :=
  if decide (n <= length t)%nat then Ok (take n t) else Raise RuntimeError.

(** [to.cat((a, b), 1)] of two matrices with the same number of rows. *)
Definition cat1 (a b : list (list float)) : list (list float) :=
  zip_with app a b.

Definition preprocess_rollout (rollout : PyObj) : Result (list (list float)) :=
  match rollout with
  | PyStepSequence ro =>
      let state := removelast (observations ro) in
      let next_state := tail (observations ro) in
      match narrow0 (actions ro) (length next_state) with
      | Raise e => Raise e
      | Ok action => Ok (cat1 state action)
      end
  | _ => Raise TypeErr
  end.

(** A trajectory on which [narrow] finds enough action rows. *)
Definition preprocessable (ro : StepSequence) : Prop :=
  (length (observations ro) - 1 <= length (actions ro))%nat.

(** ** Collaborators

    The wrapped environment, the policy, the sampler pool, the recurrent
    discriminator network and numpy's global random source are external to
    the module; the embedding is parametric in them. *)

Class Collaborators : Type := {
  Env : Type;
  Policy : Type;
  (** State of a [SamplerPool] (its workers included). *)
  Pool : Type;
  (** State of the discriminator: the weights of the [LSTMPolicy] together
      with the moment estimates of its Adam optimizer. *)
  Net : Type;
  (** State of [np.random]. *)
  Rng : Type;
  (** [inner_env(env).get_nominal_domain_param()]. *)
  get_nominal_domain_param : Env -> gmap string float;
  (** [SamplerPool(num_workers)], which may fail an assertion. *)
  SamplerPool : Z -> Result Pool;
  (** [eval_domain_params(pool, env, policy, params)]: one rollout per
      parameter dictionary; the pool is left in a new state. *)
  eval_domain_params :
    Pool -> Env -> Policy -> list (gmap string float) ->
    list StepSequence * Pool;
  (** [np.random.random_sample(n)]. *)
  random_sample : Rng -> nat -> list float * Rng;
  (** [discriminator.forward(x)[0]]: one probability per time step. *)
  discriminator_forward : Net -> list (list float) -> list float;
  (** [to.log]. *)
  torch_log : float -> float;
  (** [nn.BCELoss()(input, target)]. *)
  loss_fcn : list float -> list float -> float;
  (** [optimizer.zero_grad(); loss.backward(); optimizer.step()] for the
      loss of a (random, reference) pair of feature sequences. *)
  optimizer_step : Net -> list (list float) -> list (list float) -> Net;
  (** [StepSequence.iterate_rollouts()], defined outside this module: the
      grouped sub-rollouts of a concatenated trajectory, in order. [train]
      binds the result to a [..._batch_generator], an iterator that hands
      out every element once. *)
  iterate_rollouts : StepSequence -> list StepSequence;
}.

Section ADR.

Context `{W : Collaborators}.

(** ** [RewardGenerator] *)

Record RewardGenerator : Type := {
  batch_size : Z;
  reward_multiplier : float;
  lr : float;
  rg_discriminator : Net;
  (** [None] when no logger is attached, otherwise the values added so far. *)
  logger : option (list (string * option float));
  (** Ghost field: how often [optimizer.step()] ran. *)
  optimizer_steps : nat;
}.

Definition get_reward (rg : RewardGenerator) (traj : PyObj) : Result float :=
  match preprocess_rollout traj with
  | Raise e => Raise e
  | Ok feats =>
      let reward := discriminator_forward (rg_discriminator rg) feats in
      Ok (torch_log (np_mean reward) * reward_multiplier rg)%np
  end.

Definition apply_optimizer (rg : RewardGenerator)
    (random_batch reference_batch : list (list float)) : RewardGenerator :=
  {| batch_size := batch_size rg;
     reward_multiplier := reward_multiplier rg;
     lr := lr rg;
     rg_discriminator :=
       optimizer_step (rg_discriminator rg) random_batch reference_batch;
     logger := logger rg;
     optimizer_steps := S (optimizer_steps rg) |}.

Definition add_value (key : string) (value : option float)
    (rg : RewardGenerator) : RewardGenerator :=
  {| batch_size := batch_size rg;
     reward_multiplier := reward_multiplier rg;
     lr := lr rg;
     rg_discriminator := rg_discriminator rg;
     logger := (fun entries => entries ++ [(key, value)]) <$> logger rg;
     optimizer_steps := optimizer_steps rg |}.

(** The local variables of [train] that live across epochs: what the two
    generators still have to yield, and [loss]. *)
Record TrainLocals : Type := {
  reference_batch_generator : list StepSequence;
  random_batch_generator : list StepSequence;
  loss : option float;
}.

(** One run of [for reference_batch, random_batch in zip(g1, g2)]. [zip]
    asks its first iterator, then its second, and stops as soon as one of
    them is exhausted; an element taken from the first iterator when the
    second one is empty is lost. *)
Fixpoint zip_loop (g1 g2 : list StepSequence) (l : option float)
    : M RewardGenerator TrainLocals :=
  match g1 with
  | [] => ret {| reference_batch_generator := [];
                 random_batch_generator := g2; loss := l |}
  | reference_batch :: g1' =>
      match g2 with
      | [] => ret {| reference_batch_generator := g1';
                     random_batch_generator := []; loss := l |}
      | random_batch :: g2' =>
          (let* reference_batch :=
             lift (preprocess_rollout (PyStepSequence reference_batch)) in
           let* random_batch :=
             lift (preprocess_rollout (PyStepSequence random_batch)) in
           let* rg := get in
           let random_results :=
             discriminator_forward (rg_discriminator rg) random_batch in
           let reference_results :=
             discriminator_forward (rg_discriminator rg) reference_batch in
           let l' :=
             (loss_fcn random_results
                (replicate (length random_results) (Num 1))
              + loss_fcn reference_results
                  (replicate (length reference_results) (Num 0)))%np in
           modify (fun rg => apply_optimizer rg random_batch reference_batch) ;;
           zip_loop g1' g2' (Some l'))%py
      end
  end.

(** [for _ in range(num_epoch)] around it. *)
Fixpoint epoch_loop (n : nat) (loc : TrainLocals)
    : M RewardGenerator TrainLocals :=
  match n with
  | O => ret loc
  | S n' =>
      (let* loc' := zip_loop (reference_batch_generator loc)
                      (random_batch_generator loc) (loss loc) in
       epoch_loop n' loc')%py
  end.

Definition train (reference_trajectory randomized_trajectory : StepSequence)
    (num_epoch : Z) : M RewardGenerator (option float) :=
  (let* loc := epoch_loop (Z.to_nat num_epoch)
                 {| reference_batch_generator :=
                      iterate_rollouts reference_trajectory;
                    random_batch_generator :=
                      iterate_rollouts randomized_trajectory;
                    loss := None |} in
   let* rg := get in
   match logger rg with
   | Some _ => modify (add_value "discriminator_loss" (loss loc))
   | None => ret tt
   end ;;
   ret (loss loc))%py.

(** ** [SVPGAdapter] *)

Record SVPGAdapter : Type := {
  wrapped_env : Env;
  parameters : list DomainParam;
  (** [None] when the attribute [pool] was never bound. *)
  pool : option Pool;
  inner_policy : Policy;
  num_particles : nat;
  inner_parameter_state : list (list float);
  count : list Z;
  num_trajs : Z;
  svpg_max_step_length : float;
  discriminator : RewardGenerator;
  max_steps : Z;
  horizon : Z;
  horizon_count : Z;
}.

(** What a method of the adapter can read and change: the adapter object,
    numpy's random source, and (ghost) the batches of parameter dictionaries
    sent to the pool and the warnings issued so far. *)
Record Runtime : Type := {
  self : SVPGAdapter;
  np_random : Rng;
  dispatched : list (list (gmap string float));
  warnings : list string;
}.

Definition with_pool (p : option Pool) (a : SVPGAdapter) : SVPGAdapter :=
  {| wrapped_env := wrapped_env a; parameters := parameters a; pool := p;
     inner_policy := inner_policy a; num_particles := num_particles a;
     inner_parameter_state := inner_parameter_state a; count := count a;
     num_trajs := num_trajs a;
     svpg_max_step_length := svpg_max_step_length a;
     discriminator := discriminator a; max_steps := max_steps a;
     horizon := horizon a; horizon_count := horizon_count a |}.

Definition with_inner_parameter_state (m : list (list float)) (a : SVPGAdapter)
    : SVPGAdapter :=
  {| wrapped_env := wrapped_env a; parameters := parameters a;
     pool := pool a;
     inner_policy := inner_policy a; num_particles := num_particles a;
     inner_parameter_state := m; count := count a;
     num_trajs := num_trajs a;
     svpg_max_step_length := svpg_max_step_length a;
     discriminator := discriminator a; max_steps := max_steps a;
     horizon := horizon a; horizon_count := horizon_count a |}.

Definition with_count (c : list Z) (a : SVPGAdapter) : SVPGAdapter :=
  {| wrapped_env := wrapped_env a; parameters := parameters a;
     pool := pool a;
     inner_policy := inner_policy a; num_particles := num_particles a;
     inner_parameter_state := inner_parameter_state a; count := c;
     num_trajs := num_trajs a;
     svpg_max_step_length := svpg_max_step_length a;
     discriminator := discriminator a; max_steps := max_steps a;
     horizon := horizon a; horizon_count := horizon_count a |}.

Definition with_horizon_count (h : Z) (a : SVPGAdapter) : SVPGAdapter :=
  {| wrapped_env := wrapped_env a; parameters := parameters a;
     pool := pool a;
     inner_policy := inner_policy a; num_particles := num_particles a;
     inner_parameter_state := inner_parameter_state a; count := count a;
     num_trajs := num_trajs a;
     svpg_max_step_length := svpg_max_step_length a;
     discriminator := discriminator a; max_steps := max_steps a;
     horizon := horizon a; horizon_count := h |}.

Definition on_self (f : SVPGAdapter -> SVPGAdapter) (r : Runtime) : Runtime :=
  {| self := f (self r); np_random := np_random r;
     dispatched := dispatched r; warnings := warnings r |}.

(** *** Conversions between the ordered and the named representation *)

Definition params (a : SVPGAdapter) : list string := map name (parameters a).

Definition nominal_value (a : SVPGAdapter) (k : string) : Result float :=
  match get_nominal_domain_param (wrapped_env a) !! k with
  | Some v => Ok v
  | None => Raise (KeyError k)
  end.

Definition nominal (a : SVPGAdapter) : Result (list float) :=
  map_result (nominal_value a) (params a).

(** The dictionary comprehension [{k: nom[k] for k in ks}], filling [d] key
    by key; a later occurrence of a key overwrites an earlier one. *)
Fixpoint dict_comprehension (a : SVPGAdapter) (ks : list string)
    (d : gmap string float) : Result (gmap string float) :=
  match ks with
  | [] => Ok d
  | k :: ks' =>
      match nominal_value a k with
      | Raise e => Raise e
      | Ok v => dict_comprehension a ks' (<[k := v]> d)
      end
  end.

Definition nominal_dict (a : SVPGAdapter) : Result (gmap string float) :=
  dict_comprehension a (params a) ∅.

(** [{k: a for k, a in zip(self.params(), arr)}]. *)
Definition array_to_dict (a : SVPGAdapter) (arr : list float)
    : gmap string float :=
  foldl (fun d ka => <[ka.1 := ka.2]> d) ∅ (zip (params a) arr).

(** *** Access to the particle matrix, the counters, the random source and
    the pool *)

Definition get_row (i : Z) : M Runtime (list float) :=
  (let* r := get in lift (getitem (inner_parameter_state (self r)) i))%py.

(** [self.inner_parameter_state[i] = val]. *)
Definition set_row (i : Z) (val : list float) : M Runtime unit :=
  (let* r := get in
   let m := inner_parameter_state (self r) in
   let* n := lift (np_index (length m) i) in
   let* row := lift (getitem m i) in
   let* v := lift (assign_row row val) in
   modify (on_self (with_inner_parameter_state (<[n := v]> m))))%py.

Definition get_count (i : Z) : M Runtime Z :=
  (let* r := get in lift (getitem (count (self r)) i))%py.

(** [self.count[i] = c]. *)
Definition set_count (i : Z) (c : Z) : M Runtime unit :=
  (let* r := get in
   let cs := count (self r) in
   let* n := lift (np_index (length cs) i) in
   modify (on_self (with_count (<[n := c]> cs))))%py.

Definition draw (n : nat) : M Runtime (list float) :=
  fun r =>
    let '(v, g) := random_sample (np_random r) n in
    (Ok v, {| self := self r; np_random := g;
              dispatched := dispatched r; warnings := warnings r |}).

(** [np.random.random_sample((rows, n))], row after row. *)
Fixpoint draw_matrix (rows n : nat) : M Runtime (list (list float)) :=
  match rows with
  | O => ret []
  | S rows' =>
      (let* v := draw n in
       let* m := draw_matrix rows' n in
       ret (v :: m))%py
  end.

(** [eval_domain_params(self.pool, self.wrapped_env, self.inner_policy, ds)];
    reading [self.pool] fails when the attribute is not bound. *)
Definition dispatch (ds : list (gmap string float))
    : M Runtime (list StepSequence) :=
  fun r =>
    match pool (self r) with
    | None => (Raise (AttributeError "pool"), r)
    | Some p =>
        let '(ros, p') :=
          eval_domain_params p (wrapped_env (self r)) (inner_policy (self r)) ds in
        (Ok ros, {| self := with_pool (Some p') (self r);
                    np_random := np_random r;
                    dispatched := dispatched r ++ [ds];
                    warnings := warnings r |})
    end.

(** [[x] * n] for an integer [n]. *)
Definition list_times {A} (x : A) (n : Z) : list A := replicate (Z.to_nat n) x.

Definition assert_is_none {A} (x : option A) : M Runtime unit :=
  match x with
  | None => ret tt
  | Some _ => raise AssertionError
  end.

(** *** [reset] *)

(** With a particle index [reset] handles one row, without it the whole
    matrix; [init_state] and the returned state have that shape. *)
Definition reset_shape (i : option Z) : Type :=
  match i with
  | Some _ => list float
  | None => list (list float)
  end.

Definition reset (i : option Z) (init_state : option (reset_shape i))
    (domain_param : option (gmap string float)) : M Runtime (reset_shape i) :=
  match i return option (reset_shape i) -> M Runtime (reset_shape i) with
  | Some i => fun init_state =>
      (assert_is_none domain_param ;;
       set_count i 0 ;;
       match init_state with
       | None =>
           let* r := get in
           let* v := draw (length (parameters (self r))) in
           set_row i v
       | Some v => set_row i v
       end ;;
       get_row i)%py
  | None => fun init_state =>
      (assert_is_none domain_param ;;
       modify (on_self (fun a => with_count (replicate (num_particles a) 0) a)) ;;
       match init_state with
       | None =>
           let* r := get in
           let* m := draw_matrix (num_particles (self r))
                       (length (parameters (self r))) in
           modify (on_self (with_inner_parameter_state m))
       | Some m => modify (on_self (with_inner_parameter_state m))
       end ;;
       let* r := get in
       ret (inner_parameter_state (self r)))%py
  end init_state.

(** *** [step] *)

Record Info : Type := {
  rand : list StepSequence;
  ref : list StepSequence;
}.

Definition step (act : list float) (i : option Z)
    : M Runtime (list float * float * bool * Info) :=
  match i with
  | Some i =>
      (let* r := get in
       let a := self r in
       (* Clip the action according to the maximum step length *)
       let action :=
         map (fun x => (clip (Num (-1)) (Num 1) x * svpg_max_step_length a)%np)
             act in
       (* Perform step by moving into direction of action *)
       let* row := get_row i in
       let* moved := lift (broadcast fadd row action) in
       set_row i (np_clip (Num 0) (Num 1) moved) ;;
       let* row := get_row i in
       let param_norm := map (fun x => (x + Num (1 # 2))%np) row in
       let* nom := lift (nominal a) in
       let* scaled := lift (broadcast fmul param_norm nom) in
       let random_parameters :=
         list_times (array_to_dict a scaled) (num_trajs a) in
       let* nd := lift (nominal_dict a) in
       let nominal_parameters := list_times nd (num_trajs a) in
       (* Sample trajectories from random and reference environments *)
       let* rand := dispatch random_parameters in
       let* ref := dispatch nominal_parameters in
       (* Calculate the rewards for each trajectory *)
       let* rewards :=
         lift (map_result
                 (fun traj => get_reward (discriminator a) (PyStepSequence traj))
                 rand) in
       let reward := np_mean rewards in
       let info := {| rand := rand; ref := ref |} in
       (* Handle step count management *)
       let* c := get_count i in
       let done := bool_decide (max_steps a - 1 <= c) in
       set_count i (c + 1) ;;
       modify (on_self (fun a => with_horizon_count (horizon_count a + 1) a)) ;;
       let* c := get_count i in
       (if np_mod_is_zero c (horizon a)
        then let* v := draw (length (parameters a)) in set_row i v
        else ret tt) ;;
       let* row := get_row i in
       ret (row, reward, done, info))%py
  | None => raise (NotImplementedError "Not parallelizable")
  end.

(** *** [eval_states] *)

Definition eval_states (states : list (list float))
    : M Runtime (list float * list StepSequence * list StepSequence) :=
  (let* r := get in
   let a := self r in
   let* sstates :=
     lift (map_result
             (fun state =>
                match nominal a with
                | Raise e => Raise e
                | Ok nom =>
                    match broadcast fmul
                            (map (fun x => (x + Num (1 # 2))%np) state) nom with
                    | Raise e => Raise e
                    | Ok scaled =>
                        Ok (list_times (array_to_dict a scaled) (num_trajs a))
                    end
                end)
             states) in
   let* rand := dispatch (concat sstates) in
   let* nd := lift (nominal_dict a) in
   let* ref :=
     dispatch (list_times nd (num_trajs a * Z.of_nat (length states))) in
   let* rewards :=
     lift (map_result
             (fun traj => get_reward (discriminator a) (PyStepSequence traj))
             rand) in
   let n := Z.to_nat (num_trajs a) in
   let rewards :=
     map (fun i => np_mean (take n (drop (i * n) rewards)))
         (seq 0 (length states)) in
   ret (rewards, rand, ref))%py.

(** *** The constructor *)

(** [try: self.pool = SamplerPool(num_workers) except AssertionError:
    Warning(...)]: the handler builds a [Warning] object and drops it, so
    nothing is issued and [pool] stays unbound. *)
Definition try_sampler_pool (num_workers : Z) : Result (option Pool) :=
  match SamplerPool num_workers with
  | Ok p => Ok (Some p)
  | Raise AssertionError => Ok None
  | Raise e => Raise e
  end.

Definition init (wrapped_env : Env) (parameters : list DomainParam)
    (inner_policy : Policy) (discriminator : RewardGenerator)
    (num_particles : nat) (step_length : float) (horizon : Z)
    (num_rollouts_per_config : Z) (num_workers : Z) (max_steps : Z)
    (g : Rng) : Result Runtime :=
  match try_sampler_pool num_workers with
  | Raise e => Raise e
  | Ok pool_attr =>
      let r0 :=
        {| self :=
             {| wrapped_env := wrapped_env;
                parameters := parameters;
                pool := pool_attr;
                inner_policy := inner_policy;
                num_particles := num_particles;
                inner_parameter_state :=
                  replicate num_particles
                    (replicate (length parameters) (Num 0));
                count := replicate num_particles 0;
                num_trajs := num_rollouts_per_config;
                svpg_max_step_length := step_length;
                discriminator := discriminator;
                max_steps := max_steps;
                horizon := horizon;
                horizon_count := 0 |};
           np_random := g;
           dispatched := [];
           warnings := [] |} in
      match reset None None None r0 with
      | (Ok _, r) => Ok r
      | (Raise e, _) => Raise e
      end
  end.

(** *** Notions used to state the properties of [step] *)

(** The update rule in the words of the specification:
    [clip(v + clip(a, -1, 1) * step_length, 0, 1)]. *)
Definition update_rule (step_length : float) (v act : list float)
    : list float :=
  np_clip (Num 0) (Num 1)
    (zip_with fadd v
       (map (fun x => (clip (Num (-1)) (Num 1) x * step_length)%np) act)).

(** The attributes that no method assigns after construction. *)
Definition same_configuration (a a' : SVPGAdapter) : Prop :=
  wrapped_env a' = wrapped_env a /\
  parameters a' = parameters a /\
  inner_policy a' = inner_policy a /\
  num_particles a' = num_particles a /\
  num_trajs a' = num_trajs a /\
  svpg_max_step_length a' = svpg_max_step_length a /\
  discriminator a' = discriminator a /\
  max_steps a' = max_steps a /\
  horizon a' = horizon a.

(** [step(act, i)] for each action of [acts] in turn, collecting the [done]
    flags. *)
Fixpoint episode (i : Z) (acts : list (list float)) : M Runtime (list bool) :=
  match acts with
  | [] => ret []
  | act :: acts' =>
      (let* out := step act (Some i) in
       let* flags := episode i acts' in
       ret (out.1.2 :: flags))%py
  end.

(** The per-particle state of particle [j]: its parameter vector and its
    step counter. *)
Definition particle (j : nat) (a : SVPGAdapter)
    : option (list float) * option Z :=
  (inner_parameter_state a !! j, count a !! j).

(** The computation [m] leaves the observation [f] of the adapter as it
    was, however it ends. *)
Definition keeps {A X} (f : SVPGAdapter -> X) (m : M Runtime A) : Prop :=
  forall r, f (self (m r).2) = f (self r).

(** The computation [m], when it returns, has incremented [horizon_count]
    by one. *)
Definition bumps {A} (m : M Runtime A) : Prop :=
  forall r,
    match (m r).1 with
    | Ok _ => horizon_count (self (m r).2) = horizon_count (self r) + 1
    | Raise _ => True
    end.

(** The call ended with an exception. *)
Definition raises {S A} (x : Result A * S) : Prop :=
  exists e s, x = (Raise e, s).

End ADR.

(** ** A concrete set of collaborators

    A small executable instance, used to run the model on concrete inputs:
    the environment is its table of nominal parameters, a pool counts the
    batches it evaluated, the network counts its updates, the random source
    is a counter [g] that hands out [1/(g+2), 1/(g+3), ...]. *)

Definition demo_rollout (d : gmap string float) : StepSequence :=
  let m := default (Num 0) (d !! "m") in
  {| observations := [[m; Num 0]; [m; Num 1]; [m; Num 2]];
     actions := [[Num (1 # 4)]; [Num (3 # 4)]];
     rewards := [Num 1; Num 1] |}.

Definition demo_random_sample (g n : nat) : list float * nat :=
  (map (fun j => Num (1 # Pos.succ (Pos.of_succ_nat (g + j)))) (seq 0 n),
   (g + n)%nat).

Definition demo : Collaborators := {|
  Env := gmap string float;
  Policy := unit;
  Pool := nat;
  Net := nat;
  Rng := nat;
  get_nominal_domain_param := fun e => e;
  SamplerPool := fun num_workers =>
    if decide (0 < num_workers) then Ok 0%nat else Raise AssertionError;
  eval_domain_params := fun p _ _ ds => (map demo_rollout ds, S p);
  random_sample := demo_random_sample;
  discriminator_forward := fun _ feats => map (fun _ => Num (1 # 2)) feats;
  torch_log := fun q => (q - Num 1)%np;
  loss_fcn := fun input target =>
    fold_right fadd (Num 0)
      (zip_with (fun x y => (x - y) * (x - y))%np input target);
  optimizer_step := fun net _ _ => S net;
  iterate_rollouts := fun ro => [ro];
|}.

Section Demo.

#[local] Existing Instance demo.

Definition demo_reward_generator : RewardGenerator :=
  {| batch_size := 1; reward_multiplier := Num 1; lr := Num (3 # 1000);
     rg_discriminator := 0%nat; logger := Some []; optimizer_steps := 0 |}.

Definition demo_env : gmap string float := {[ "m" := Num 2; "l" := Num 3 ]}.

Definition demo_parameters : list DomainParam :=
  [ {| name := "m"; weight := Num 1 |}; {| name := "l"; weight := Num 1 |} ].

(** Two particles, two randomized parameters, [max_steps = 4],
    [horizon = 2], one trajectory per configuration. *)
Definition demo_adapter : SVPGAdapter :=
  {| wrapped_env := demo_env;
     parameters := demo_parameters;
     pool := Some 0%nat;
     inner_policy := tt;
     num_particles := 2;
     inner_parameter_state :=
       [[Num (3 # 10); Num (9 # 10)]; [Num (1 # 4); Num (1 # 5)]];
     count := [0; 0];
     num_trajs := 1;
     svpg_max_step_length := Num (1 # 100);
     discriminator := demo_reward_generator;
     max_steps := 4;
     horizon := 2;
     horizon_count := 0 |}.

Definition demo_runtime : Runtime :=
  {| self := demo_adapter; np_random := 0%nat;
     dispatched := []; warnings := [] |}.

End Demo.

(** * The ADR algorithm object *)

Section ADRAlgorithm.

Context `{W : Collaborators}.

(** ** [ADR.compute_params] *)

(** The keys of the dictionary that a comprehension over [ks] builds, in
    insertion order: every name at its first occurrence. *)
Fixpoint dict_keys (ks seen : list string) : list string :=
  match ks with
  | [] => []
  | k :: ks' =>
      if decide (k ∈ seen) then dict_keys ks' seen
      else k :: dict_keys ks' (k :: seen)
  end.

(** [enumerate(keys)], counting from [n]. *)
Fixpoint enumerate_from {A} (n : nat) (xs : list A) : list (nat * A) :=
  match xs with
  | [] => []
  | x :: xs' => (n, x) :: enumerate_from (S n) xs'
  end.

(** [{k: (sim_instance[i] + 0.5) * nominal[k] for i, k in iks}], filling
    [d]. *)
Fixpoint scaled_comprehension (nominal : gmap string float)
    (sim_instance : list float) (iks : list (nat * string)) (d : gmap string float)
    : Result (gmap string float) :=
  match iks with
  | [] => Ok d
  | (i, k) :: iks' =>
      match getitem sim_instance (Z.of_nat i) with
      | Raise e => Raise e
      | Ok x =>
          match nominal !! k with
          | None => Raise (KeyError k)
          | Some n =>
              scaled_comprehension nominal sim_instance iks'
                (<[k := ((x + Num (1 # 2)) * n)%np]> d)
          end
      end
  end.

(** [sim_instances] is indexed by time step, instance and parameter. *)
Definition compute_params (svpg_wrapper : SVPGAdapter)
    (sim_instances : list (list (list float))) (t : Z)
    : Result (list (gmap string float)) :=
  match nominal_dict svpg_wrapper with
  | Raise e => Raise e
  | Ok nominal =>
      let keys := dict_keys (params svpg_wrapper) [] in
      match getitem sim_instances t with
      | Raise e => Raise e
      | Ok instances =>
          match getitem instances 0 with
          | Raise e => Raise e
          | Ok first =>
              if decide (length keys = length first)
              then map_result
                     (fun sim_instance =>
                        scaled_comprehension nominal sim_instance
                          (enumerate_from 0 keys) ∅)
                     instances
              else Raise AssertionError
          end
      end
  end.

(** ** The rollout of one particle in [ADR.step] *)

(** What the loop over one particle accumulates. [states] holds the arrays
    returned by the adapter; each of them is a view of a row of the particle
    matrix and is recorded as the index of that row. *)
Record ParticleRollout : Type := {
  states : list Z;
  pr_actions : list (list float);
  pr_rewards : list float;
  infos : list Info;
  rand_trajs_now : list StepSequence;
  rand_trajs : list StepSequence;
  ref_trajs : list StepSequence;
}.

Section Particle.

(** The exploration strategy of the particle: its state [P], and the action
    it samples for an adapter state. *)
Context {P : Type} (expl_strat : P -> list float -> list float * P).

(** [while not done: ...], at most [fuel] times; [None] when the fuel is
    used up before [done]. *)
Fixpoint particle_loop (fuel : nat) (i : Z) (p : P) (state : list float)
    (acc : ParticleRollout) : M Runtime (option (ParticleRollout * P)) :=
  match fuel with
  | O => ret None
  | S fuel' =>
      let '(action, p') := expl_strat p state in
      (let* out := step action (Some i) in
       let '(state', reward, done, info) := out in
       let acc' :=
         {| states := states acc ++ [i];
            pr_actions := pr_actions acc ++ [action];
            pr_rewards := pr_rewards acc ++ [reward];
            infos := infos acc ++ [info];
            rand_trajs_now := rand_trajs_now acc ++ rand info;
            rand_trajs := rand_trajs acc ++ rand info;
            ref_trajs := ref_trajs acc ++ ref info |} in
       if (done : bool) then ret (Some (acc', p'))
       else particle_loop fuel' i p' state' acc')%py
  end.

(** The body of [for i, p in enumerate(self.svpg.iter_particles)] up to the
    end of the [while] loop; [rand_trajs] and [ref_trajs] are the lists
    collected for the particles before. *)
Definition rollout_particle (fuel : nat) (i : Z) (p : P)
    (rand_trajs ref_trajs : list StepSequence)
    : M Runtime (option (ParticleRollout * P)) :=
  (let* state := reset (Some i) None None in
   particle_loop fuel i p state
     {| states := []; pr_actions := []; pr_rewards := []; infos := [];
        rand_trajs_now := []; rand_trajs := rand_trajs;
        ref_trajs := ref_trajs |})%py.

End Particle.

End ADRAlgorithm.

(** * The real Barrett WAM, ball-in-the-cup

    The parts of [pyrado/environments/barrett_wam/wam_bic.py] that compute
    on arrays: the observation of the step-based environment and the
    callback of the episodic one. The entries of the arrays are rationals
    here: the properties below are about the layout of the arrays, and about
    bounds under hypotheses that confine every entry to an interval. *)

(** The exceptions of these methods. *)
Inductive WamExc : Type :=
| WamIndexError
| WamValueError
| WamTypeError
| WamZeroDivisionError.

Inductive Outcome (A : Type) : Type :=
| Returns (a : A)
| Fails (e : WamExc).
Arguments Returns {A} a.
Arguments Fails {A} e.

(** [a[i]] on a one-dimensional array. *)
Definition item {A} (a : list A) (i : Z) : Outcome A :=
  match getitem a i with
  | Ok x => Returns x
  | Raise _ => Fails WamIndexError
  end.

(** [BoxSpace(bound_lo, bound_up, labels=labels)], as the three arrays it is
    built from. *)
Record BoxSpace : Type := {
  bound_lo : list Q;
  bound_up : list Q;
  labels : list string;
}.

Module WAMBallInCupRealStepBased.

(** The attributes read by [obs_space] and [observe]. *)
Record Self : Type := {
  observe_ball : bool;
  observe_cup : bool;
  curr_step : Z;
  max_steps : Z;
}.

Definition obs_space (self : Self) : BoxSpace :=
  let '(obs_lo, obs_up, labels) := ([0%Q], [1%Q], ["t"]) in
  let '(obs_lo, obs_up, labels) :=
    if observe_ball self
    then (obs_lo ++ [(-3)%Q; (-3)%Q], obs_up ++ [3%Q; 3%Q],
          labels ++ ["ball_x"; "ball_z"])
    else (obs_lo, obs_up, labels) in
  let '(obs_lo, obs_up, labels) :=
    if observe_cup self
    then (obs_lo ++ [(-3)%Q; (-3)%Q], obs_up ++ [3%Q; 3%Q],
          labels ++ ["cup_x"; "cup_z"])
    else (obs_lo, obs_up, labels) in
  {| bound_lo := obs_lo; bound_up := obs_up; labels := labels |}.

(** [self._curr_step / self.max_steps] on integers. *)
Definition normalized_time (self : Self) : Outcome Q :=
  if max_steps self =? 0 then Fails WamZeroDivisionError
  else Returns (inject_Z (curr_step self) / inject_Z (max_steps self))%Q.

Definition observe (self : Self) (state : list Q) : Outcome (list Q) :=
  match normalized_time self with
  | Fails e => Fails e
  | Returns t =>
      let obs := [t] in
      let with_ball :=
        if observe_ball self
        then match item state (-3) with
             | Fails e => Fails e
             | Returns x =>
                 match item state (-1) with
                 | Fails e => Fails e
                 | Returns z => Returns (obs ++ [x; z])
                 end
             end
        else Returns obs in
      match with_ball with
      | Fails e => Fails e
      | Returns obs =>
          if observe_cup self
          then match item state (-6) with
               | Fails e => Fails e
               | Returns x =>
                   match item state (-4) with
                   | Fails e => Fails e
                   | Returns z => Returns (obs ++ [x; z])
                   end
               end
          else Returns obs
      end
  end.

(** The state that [step] assembles before it calls [observe]: joint
    positions and velocities, then the ball position, then the cup
    position, the latter two when they are observed. *)
Definition assemble_state (self : Self) (qpos qvel ball_pos cup_pos : list Q)
    : list Q :=
  let state := qpos ++ qvel in
  let state := if observe_ball self then state ++ ball_pos else state in
  if observe_cup self then state ++ cup_pos else state.

End WAMBallInCupRealStepBased.

Module WAMBallInCupRealEpisodic.

(** The attributes used by [_callback]. [curr_step_rr] is [None] until
    [reset] sets it. *)
Record Self : Type := {
  max_steps : Z;
  curr_step_rr : option Z;
  qpos_des : list (list Q);
  qvel_des : list (list Q);
  qpos_real : list (list Q);
  qvel_real : list (list Q);
}.

(** The joint group handed to the callback: what [jg.get] reads and what
    [jg.set] writes. *)
Record JointGroup : Type := {
  pos : list Q;
  vel : list Q;
  des_pos : list Q;
  des_vel : list Q;
}.

(** [m[i] = val] on a matrix, giving the matrix after the assignment. *)
Definition set_item_row (m : list (list Q)) (i : Z) (val : list Q)
    : Outcome (list (list Q)) :=
  match np_index (length m) i with
  | Raise _ => Fails WamIndexError
  | Ok n =>
      match m !! n with
      | None => Fails WamIndexError
      | Some row =>
          match assign_row row val with
          | Raise _ => Fails WamValueError
          | Ok v => Returns (<[n := v]> m)
          end
      end
  end.

Definition callback (self : Self) (jg : JointGroup)
    : Outcome bool * Self * JointGroup :=
  match curr_step_rr self with
  | None => (Fails WamTypeError, self, jg)
  | Some rr =>
      (* Check if max_steps is reached *)
      if bool_decide (max_steps self <= rr) then (Returns true, self, jg)
      else
        (* Get current joint position and velocity for storing *)
        match set_item_row (qpos_real self) rr (pos jg) with
        | Fails e => (Fails e, self, jg)
        | Returns qpos_real' =>
            let self1 :=
              {| max_steps := max_steps self;
                 curr_step_rr := curr_step_rr self;
                 qpos_des := qpos_des self; qvel_des := qvel_des self;
                 qpos_real := qpos_real'; qvel_real := qvel_real self |} in
            match set_item_row (qvel_real self1) rr (vel jg) with
            | Fails e => (Fails e, self1, jg)
            | Returns qvel_real' =>
                let self2 :=
                  {| max_steps := max_steps self1;
                     curr_step_rr := curr_step_rr self1;
                     qpos_des := qpos_des self1; qvel_des := qvel_des self1;
                     qpos_real := qpos_real self1;
                     qvel_real := qvel_real' |} in
                (* Set desired joint position and velocity *)
                match item (qpos_des self2) rr with
                | Fails e => (Fails e, self2, jg)
                | Returns dpos =>
                    match item (qvel_des self2) rr with
                    | Fails e => (Fails e, self2, jg)
                    | Returns dvel =>
                        (Returns false,
                         (* Update current step at real robot *)
                         {| max_steps := max_steps self2;
                            curr_step_rr := Some (rr + 1);
                            qpos_des := qpos_des self2;
                            qvel_des := qvel_des self2;
                            qpos_real := qpos_real self2;
                            qvel_real := qvel_real self2 |},
                         {| pos := pos jg; vel := vel jg;
                            des_pos := dpos; des_vel := dvel |})
                    end
                end
            end
        end
  end.

(** The control process calls the callback once per cycle, each time with
    the joint group of that cycle. *)
Fixpoint run_callbacks (self : Self) (jgs : list JointGroup)
    : list (Outcome bool * JointGroup) * Self :=
  match jgs with
  | [] => ([], self)
  | jg :: jgs' =>
      let '(res, self', jg') := callback self jg in
      let '(outs, self'') := run_callbacks self' jgs' in
      ((res, jg') :: outs, self'')
  end.

End WAMBallInCupRealEpisodic.


(** ** Further concrete inputs *)

Section DemoFurther.

#[local] Existing Instance demo.

(** An adapter that randomizes ["m"] and ["x"], of which the environment
    knows only the first. *)
Definition demo_adapter_missing : SVPGAdapter :=
  {| wrapped_env := demo_env;
     parameters :=
       [ {| name := "m"; weight := Num 1 |};
         {| name := "x"; weight := Num 1 |} ];
     pool := Some 0%nat;
     inner_policy := tt;
     num_particles := 1;
     inner_parameter_state := [[Num (3 # 10); Num (9 # 10)]];
     count := [0];
     num_trajs := 1;
     svpg_max_step_length := Num (1 # 100);
     discriminator := demo_reward_generator;
     max_steps := 4;
     horizon := 2;
     horizon_count := 0 |}.

Definition demo_runtime_missing : Runtime :=
  {| self := demo_adapter_missing; np_random := 0%nat;
     dispatched := []; warnings := [] |}.

End DemoFurther.

(** An exploration strategy that counts its calls and always proposes
    [1/2] in every direction. *)
Definition demo_expl_strat (p : nat) (state : list float) : list float * nat :=
  (map (fun _ => Num (1 # 2)) state, S p).

(** A step-based WAM environment observing ball and cup, at step 1 of 4. *)
Definition demo_wam : WAMBallInCupRealStepBased.Self :=
  {| WAMBallInCupRealStepBased.observe_ball := true;
     WAMBallInCupRealStepBased.observe_cup := true;
     WAMBallInCupRealStepBased.curr_step := 1;
     WAMBallInCupRealStepBased.max_steps := 4 |}.

(** An episodic WAM environment with a trajectory of two steps for two
    joints, and the joint groups of two control cycles. *)
Definition demo_episodic : WAMBallInCupRealEpisodic.Self :=
  {| WAMBallInCupRealEpisodic.max_steps := 2;
     WAMBallInCupRealEpisodic.curr_step_rr := Some 0;
     WAMBallInCupRealEpisodic.qpos_des := [[1%Q; 2%Q]; [3%Q; 4%Q]];
     WAMBallInCupRealEpisodic.qvel_des := [[0%Q; 0%Q]; [1 # 2; 1 # 2]];
     WAMBallInCupRealEpisodic.qpos_real := [[0%Q; 0%Q]; [0%Q; 0%Q]];
     WAMBallInCupRealEpisodic.qvel_real := [[0%Q; 0%Q]; [0%Q; 0%Q]] |}.

Definition demo_joint_groups : list WAMBallInCupRealEpisodic.JointGroup :=
  [ {| WAMBallInCupRealEpisodic.pos := [1 # 10; 2 # 10];
       WAMBallInCupRealEpisodic.vel := [0%Q; 0%Q];
       WAMBallInCupRealEpisodic.des_pos := [];
       WAMBallInCupRealEpisodic.des_vel := [] |};
    {| WAMBallInCupRealEpisodic.pos := [9 # 10; 19 # 10];
       WAMBallInCupRealEpisodic.vel := [1 # 3; 1 # 3];
       WAMBallInCupRealEpisodic.des_pos := [1%Q; 2%Q];
       WAMBallInCupRealEpisodic.des_vel := [0%Q; 0%Q] |} ].

(** * Properties *)

Section Properties.

Context `{W : Collaborators}.

(** ** numpy helpers *)

Lemma fle_Num (a b : Q) : fle (Num a) (Num b) <-> (a <= b)%Q.
Proof.
  unfold fle, fcompare. rewrite Qle_alt.
  destruct (a ?= b)%Q; split; (done || intros H; by destruct H).
Qed.

Lemma in_unit_Num (q : Q) : in_unit (Num q) <-> (0 <= q)%Q /\ (q <= 1)%Q.
Proof. unfold in_unit. by rewrite !fle_Num. Qed.

(** Clipping a float other than NaN between two numbers gives a number
    between them. *)
Lemma clip_bounds (lo hi : Q) (x : float) :
  (lo <= hi)%Q -> isnan x = false ->
  exists q, clip (Num lo) (Num hi) x = Num q /\ (lo <= q)%Q /\ (q <= hi)%Q.
Proof.
  intros Hle Hx. unfold clip, np_maximum, np_minimum.
  destruct x as [q | | |]; [| | | done]; simpl.
  - destruct (q ?= lo)%Q eqn:Hq; simpl.
    + destruct (hi ?= q)%Q eqn:Hh;
        [exists hi | exists hi | exists q]; (split; [done |]).
      * split; [exact Hle | apply Qle_refl].
      * split; [exact Hle | apply Qle_refl].
      * apply Qeq_alt in Hq. apply Qgt_alt in Hh.
        split; [rewrite Hq; apply Qle_refl | by apply Qlt_le_weak].
    + apply Qlt_alt in Hq.
      destruct (hi ?= lo)%Q eqn:Hh; [exists hi | exists hi | exists lo];
        (split; [done |]).
      * split; [exact Hle | apply Qle_refl].
      * split; [exact Hle | apply Qle_refl].
      * split; [apply Qle_refl | exact Hle].
    + apply Qgt_alt in Hq.
      destruct (hi ?= q)%Q eqn:Hh; [exists hi | exists hi | exists q];
        (split; [done |]).
      * split; [exact Hle | apply Qle_refl].
      * split; [exact Hle | apply Qle_refl].
      * apply Qgt_alt in Hh. split; by apply Qlt_le_weak.
  - exists hi. split; [done |]. split; [exact Hle | apply Qle_refl].
  - destruct (hi ?= lo)%Q eqn:Hh; [exists hi | exists hi | exists lo];
      (split; [done |]).
    + split; [exact Hle | apply Qle_refl].
    + split; [exact Hle | apply Qle_refl].
    + split; [apply Qle_refl | exact Hle].
Qed.

Lemma clip_unit (x : float) :
  isnan x = false -> in_unit (clip (Num 0) (Num 1) x).
Proof.
  intros Hx. destruct (clip_bounds 0 1 x) as (q & -> & Hq); [done | done |].
  by apply in_unit_Num.
Qed.

(** NaN passes through [np.clip]. *)
Lemma clip_NaN (lo hi : float) : clip lo hi NaN = NaN.
Proof. unfold clip, np_maximum, np_minimum. by destruct lo, hi. Qed.

Lemma np_clip_unit (v : list float) :
  Forall (fun x => isnan x = false) v ->
  Forall in_unit (np_clip (Num 0) (Num 1) v).
Proof.
  intros Hv. unfold np_clip. apply Forall_map.
  eapply Forall_impl; [exact Hv |]. intros x. apply clip_unit.
Qed.

Lemma length_np_clip lo hi (v : list float) :
  length (np_clip lo hi v) = length v.
Proof. apply length_map. Qed.

Lemma np_index_nat (n i : nat) : (i < n)%nat -> np_index n (Z.of_nat i) = Ok i.
Proof.
  intros Hi. unfold np_index. rewrite decide_True by lia.
  by rewrite Nat2Z.id.
Qed.

Lemma getitem_nat {A} (l : list A) (i : nat) (x : A) :
  l !! i = Some x -> getitem l (Z.of_nat i) = Ok x.
Proof.
  intros Hx. unfold getitem.
  rewrite np_index_nat by (by eapply lookup_lt_Some).
  by rewrite Hx.
Qed.

Lemma broadcast_same_length f (x y : list float) :
  length x = length y -> broadcast f x y = Ok (zip_with f x y).
Proof. intros Hl. unfold broadcast. by rewrite decide_True. Qed.

Lemma assign_row_same_length {A} (row val : list A) :
  length val = length row -> assign_row row val = Ok val.
Proof. intros Hl. unfold assign_row. by rewrite decide_True. Qed.

(** ** [preprocess_rollout] *)

Lemma removelast_take {A} (l : list A) :
  removelast l = take (pred (length l)) l.
Proof. apply removelast_firstn_len. Qed.

Lemma length_tail {A} (l : list A) : length (tail l) = (length l - 1)%nat.
Proof. destruct l; simpl; lia. Qed.

(** C8. [preprocess_rollout] raises the input-type error on everything that
    is not a trajectory; on a trajectory with [T + 1] observations (and at
    least [T] actions) it returns [T] rows, the row at time [t] being the
    observation at [t] followed by the action at [t]; the last observation
    is left out. *)
Theorem preprocess_rollout_spec :
  (forall x : PyObj,
      (forall ro, x <> PyStepSequence ro) ->
      preprocess_rollout x = Raise TypeErr) /\
  (forall (ro : StepSequence) (T : nat),
      length (observations ro) = S T ->
      (T <= length (actions ro))%nat ->
      exists feats,
        preprocess_rollout (PyStepSequence ro) = Ok feats /\
        length feats = T /\
        forall t, (t < T)%nat ->
          exists state_t action_t,
            observations ro !! t = Some state_t /\
            actions ro !! t = Some action_t /\
            feats !! t = Some (state_t ++ action_t)).
Proof.
  split.
  - intros x Hx. destruct x; try reflexivity. by destruct (Hx ro).
  - intros ro T Hobs Hact. unfold preprocess_rollout, narrow0.
    rewrite length_tail, Hobs, decide_True by lia.
    replace (S T - 1)%nat with T by lia.
    eexists. split; [reflexivity |].
    unfold cat1. rewrite removelast_take, Hobs. simpl pred. split.
    + rewrite length_zip_with, !length_take. lia.
    + intros t Ht.
      destruct (lookup_lt_is_Some_2 (observations ro) t) as [st Hst]; [lia |].
      destruct (lookup_lt_is_Some_2 (actions ro) t) as [at_ Hat]; [lia |].
      exists st, at_. split; [done |]. split; [done |].
      rewrite lookup_zip_with, !lookup_take_lt, Hst, Hat by done. done.
Qed.

(** ** Conversions of the nominal parameters *)

Lemma dict_comprehension_zip (a : SVPGAdapter) (ks : list string)
    (d : gmap string float) :
  (forall k, k ∈ ks ->
     is_Some (get_nominal_domain_param (wrapped_env a) !! k)) ->
  exists arr,
    map_result (nominal_value a) ks = Ok arr /\
    dict_comprehension a ks d
    = Ok (foldl (fun d ka => <[ka.1 := ka.2]> d) d (zip ks arr)).
Proof.
  revert d. induction ks as [| k ks IH]; intros d Hks.
  - exists []. done.
  - destruct (Hks k) as [v Hv]; [by left |].
    destruct (IH (<[k := v]> d)) as (arr & Harr & Hd).
    { intros k' Hk'. apply Hks. by right. }
    exists (v :: arr). simpl. unfold nominal_value at 1 3.
    rewrite Hv, Harr. split; [done |]. exact Hd.
Qed.

(** C5. When the wrapped environment has a nominal value for every
    randomized parameter, [nominal()] and [nominal_dict()] both return, and
    [array_to_dict(nominal())] is the dictionary [nominal_dict()]. *)
Theorem array_to_dict_nominal (a : SVPGAdapter) :
  (forall k, k ∈ params a ->
     is_Some (get_nominal_domain_param (wrapped_env a) !! k)) ->
  exists arr d,
    nominal a = Ok arr /\
    nominal_dict a = Ok d /\
    array_to_dict a arr = d.
Proof.
  intros Hks.
  destruct (dict_comprehension_zip a (params a) ∅ Hks) as (arr & Harr & Hd).
  exists arr. eexists. split; [exact Harr |]. split; [exact Hd |]. done.
Qed.

(** ** [step] without a particle index *)

(** C7. [step(a, None)] raises [NotImplementedError] at once: the adapter,
    the random source and the record of dispatched rollout batches are
    those of before the call. *)
Theorem step_without_index (act : list float) (r : Runtime) :
  step act None r = (Raise (NotImplementedError "Not parallelizable"), r).
Proof. reflexivity. Qed.

(** ** [train] *)

Lemma preprocess_rollout_ok (ro : StepSequence) :
  preprocessable ro ->
  exists feats, preprocess_rollout (PyStepSequence ro) = Ok feats.
Proof.
  unfold preprocessable, preprocess_rollout, narrow0. intros Hro.
  rewrite length_tail, decide_True by done. eauto.
Qed.

(** A pass of the inner loop takes one optimizer step per pair it finds,
    and leaves at least one of the generators exhausted. *)
Lemma zip_loop_steps (g1 g2 : list StepSequence) (l : option float)
    (rg : RewardGenerator) :
  Forall preprocessable g1 ->
  Forall preprocessable g2 ->
  exists loc rg',
    zip_loop g1 g2 l rg = (Ok loc, rg') /\
    optimizer_steps rg'
    = (optimizer_steps rg + Nat.min (length g1) (length g2))%nat /\
    logger rg' = logger rg /\
    (reference_batch_generator loc = [] \/ random_batch_generator loc = []).
Proof.
  intros H1. revert g2 l rg.
  induction H1 as [| ro1 g1 Hro1 _ IH]; intros g2 l rg H2.
  - do 2 eexists. simpl. unfold ret. split; [reflexivity |]. simpl.
    split; [lia |]. auto.
  - destruct H2 as [| ro2 g2 Hro2 H2].
    + do 2 eexists. simpl. unfold ret. split; [reflexivity |]. simpl.
      split; [lia |]. auto.
    + destruct (preprocess_rollout_ok ro1 Hro1) as [f1 Hf1].
      destruct (preprocess_rollout_ok ro2 Hro2) as [f2 Hf2].
      cbn [zip_loop]. unfold bind, lift, get, modify. rewrite Hf1, Hf2.
      match goal with
      | |- context [zip_loop g1 g2 ?l' ?rg'] =>
          destruct (IH g2 l' rg' H2) as (loc & rg'' & Hrun & Hsteps & Hlog & Hex)
      end.
      exists loc, rg''. split; [exact Hrun |].
      rewrite Hsteps, Hlog. simpl. split; [lia |]. auto.
Qed.

(** Once a generator is exhausted a pass of the inner loop finds no pair. *)
Lemma zip_loop_exhausted (g1 g2 : list StepSequence) (l : option float)
    (rg : RewardGenerator) :
  g1 = [] \/ g2 = [] ->
  exists loc,
    zip_loop g1 g2 l rg = (Ok loc, rg) /\
    loss loc = l /\
    (reference_batch_generator loc = [] \/ random_batch_generator loc = []).
Proof.
  intros [-> | ->].
  - eexists. simpl. unfold ret. split; [reflexivity |]. auto.
  - destruct g1; eexists; simpl; unfold ret; (split; [reflexivity |]); auto.
Qed.

Lemma epoch_loop_exhausted (n : nat) (loc : TrainLocals)
    (rg : RewardGenerator) :
  reference_batch_generator loc = [] \/ random_batch_generator loc = [] ->
  exists loc',
    epoch_loop n loc rg = (Ok loc', rg) /\ loss loc' = loss loc.
Proof.
  revert loc. induction n as [| n IH]; intros loc Hex.
  - exists loc. done.
  - destruct (zip_loop_exhausted _ _ (loss loc) rg Hex) as (loc1 & Hrun & Hl & Hex1).
    destruct (IH loc1 Hex1) as (loc' & Hrun' & Hl').
    exists loc'. simpl. unfold bind. rewrite Hrun, Hrun'.
    split; [done |]. congruence.
Qed.

Lemma optimizer_steps_add_value key value (rg : RewardGenerator) :
  optimizer_steps (add_value key value rg) = optimizer_steps rg.
Proof. reflexivity. Qed.

(** The tail of [train]: logging and returning [loss]. *)
Lemma train_unfold reference_trajectory randomized_trajectory num_epoch
    (rg rg' : RewardGenerator) (loc : TrainLocals) :
  epoch_loop (Z.to_nat num_epoch)
    {| reference_batch_generator := iterate_rollouts reference_trajectory;
       random_batch_generator := iterate_rollouts randomized_trajectory;
       loss := None |} rg = (Ok loc, rg') ->
  train reference_trajectory randomized_trajectory num_epoch rg
  = (Ok (loss loc),
     match logger rg' with
     | Some _ => add_value "discriminator_loss" (loss loc) rg'
     | None => rg'
     end).
Proof.
  intros Hrun. unfold train, bind. rewrite Hrun. unfold get.
  destruct (logger rg'); reflexivity.
Qed.

(** C3. What [train] does for [num_epoch >= 1]: the two generators are
    created once, before the epoch loop, so the first epoch takes one
    optimizer step for each same-index pair and every later epoch finds a
    generator exhausted. The total is the number of pairs, not [num_epoch]
    times that number. *)
Theorem train_optimizer_steps (reference_trajectory randomized_trajectory
    : StepSequence) (num_epoch : Z) (rg : RewardGenerator) :
  Forall preprocessable (iterate_rollouts reference_trajectory) ->
  Forall preprocessable (iterate_rollouts randomized_trajectory) ->
  1 <= num_epoch ->
  exists l rg',
    train reference_trajectory randomized_trajectory num_epoch rg
    = (Ok l, rg') /\
    optimizer_steps rg'
    = (optimizer_steps rg
       + Nat.min (length (iterate_rollouts reference_trajectory))
                 (length (iterate_rollouts randomized_trajectory)))%nat.
Proof.
  intros Href Hrand Hn.
  destruct (Z.to_nat num_epoch) as [| n] eqn:En; [lia |].
  destruct (zip_loop_steps _ _ None rg Href Hrand)
    as (loc1 & rg1 & Hrun1 & Hsteps & _ & Hex).
  destruct (epoch_loop_exhausted n loc1 rg1 Hex) as (loc & Hrun & _).
  eexists. eexists. split.
  - apply train_unfold. rewrite En. simpl. unfold bind.
    rewrite Hrun1. exact Hrun.
  - destruct (logger rg1); [rewrite optimizer_steps_add_value |]; exact Hsteps.
Qed.

(** C6. With [num_epoch <= 0], or with a population that yields no
    sub-rollout, [train] does not raise and returns [None], the value [loss]
    was initialised with; no optimizer step is taken, the weights are the
    same, and an attached logger receives [None] as the loss. *)
Theorem train_without_pairs (reference_trajectory randomized_trajectory
    : StepSequence) (num_epoch : Z) (rg : RewardGenerator) :
  num_epoch <= 0 \/
  iterate_rollouts reference_trajectory = [] \/
  iterate_rollouts randomized_trajectory = [] ->
  exists rg',
    train reference_trajectory randomized_trajectory num_epoch rg
    = (Ok None, rg') /\
    optimizer_steps rg' = optimizer_steps rg /\
    rg_discriminator rg' = rg_discriminator rg /\
    logger rg'
    = (fun entries => entries ++ [("discriminator_loss", None)]) <$> logger rg.
Proof.
  intros Hcase.
  assert (exists loc,
    epoch_loop (Z.to_nat num_epoch)
      {| reference_batch_generator := iterate_rollouts reference_trajectory;
         random_batch_generator := iterate_rollouts randomized_trajectory;
         loss := None |} rg = (Ok loc, rg) /\ loss loc = None)
    as (loc & Hrun & Hloss).
  { destruct Hcase as [Hn | Hex].
    - replace (Z.to_nat num_epoch) with 0%nat by lia. eexists. done.
    - apply epoch_loop_exhausted. exact Hex. }
  eexists. split.
  - rewrite (train_unfold _ _ _ _ _ _ Hrun), Hloss. reflexivity.
  - destruct (logger rg) eqn:Hlog; simpl; rewrite ?Hlog; done.
Qed.

(** ** Running [step]

    Contracts of the collaborators: [random_sample(n)] returns [n] numbers
    of the half-open interval [0, 1), and the rollouts that
    [eval_domain_params] returns are trajectories that [preprocess_rollout]
    accepts. *)

Hypothesis random_sample_length :
  forall g n, length (random_sample g n).1 = n.
Hypothesis random_sample_range :
  forall g n, Forall in_half_open_unit (random_sample g n).1.
Hypothesis rollouts_preprocessable :
  forall p e pi ds, Forall preprocessable (eval_domain_params p e pi ds).1.

Lemma map_result_ok {A B} (f : A -> Result B) (xs : list A) :
  Forall (fun x => exists y, f x = Ok y) xs -> exists ys, map_result f xs = Ok ys.
Proof.
  induction 1 as [| x xs [y Hy] _ [ys Hys]]; simpl.
  - eauto.
  - rewrite Hy, Hys. eauto.
Qed.

Lemma map_result_ok_inv {A B} (f : A -> Result B) (xs : list A) (ys : list B) :
  map_result f xs = Ok ys -> forall x, x ∈ xs -> exists y, f x = Ok y.
Proof.
  revert ys. induction xs as [| x xs IH]; intros ys Hrun x' Hx'.
  - by apply elem_of_nil in Hx'.
  - simpl in Hrun. destruct (f x) as [y |] eqn:Hy; [| done].
    destruct (map_result f xs) as [ys' |] eqn:Hys; [| done].
    apply elem_of_cons in Hx' as [-> | Hx']; eauto.
Qed.


Lemma bind_run {S A B} (m : M S A) (k : A -> M S B) (s s' : S) (a : A) :
  m s = (Ok a, s') -> bind m k s = k a s'.
Proof. intros Hm. unfold bind. by rewrite Hm. Qed.

Lemma get_row_run (r : Runtime) (i : nat) (v : list float) :
  inner_parameter_state (self r) !! i = Some v ->
  get_row (Z.of_nat i) r = (Ok v, r).
Proof.
  intros Hv. unfold get_row, bind, get, lift. by rewrite (getitem_nat _ _ _ Hv).
Qed.

Lemma set_row_run (r : Runtime) (i : nat) (row val : list float) :
  inner_parameter_state (self r) !! i = Some row ->
  length val = length row ->
  set_row (Z.of_nat i) val r
  = (Ok tt, on_self (with_inner_parameter_state
                       (<[i := val]> (inner_parameter_state (self r)))) r).
Proof.
  intros Hrow Hlen. unfold set_row, bind, get, lift, modify.
  rewrite np_index_nat by (by eapply lookup_lt_Some).
  rewrite (getitem_nat _ _ _ Hrow), assign_row_same_length by done. done.
Qed.

Lemma get_count_run (r : Runtime) (i : nat) (c : Z) :
  count (self r) !! i = Some c -> get_count (Z.of_nat i) r = (Ok c, r).
Proof.
  intros Hc. unfold get_count, bind, get, lift. by rewrite (getitem_nat _ _ _ Hc).
Qed.

Lemma set_count_run (r : Runtime) (i : nat) (c : Z) :
  (i < length (count (self r)))%nat ->
  set_count (Z.of_nat i) c r
  = (Ok tt, on_self (with_count (<[i := c]> (count (self r)))) r).
Proof.
  intros Hi. unfold set_count, bind, get, lift, modify.
  by rewrite np_index_nat.
Qed.

Lemma nominal_dict_ok (a : SVPGAdapter) (nom : list float) :
  nominal a = Ok nom -> exists d, nominal_dict a = Ok d.
Proof.
  intros Hnom.
  destruct (dict_comprehension_zip a (params a) ∅) as (arr & _ & Hd); [| eauto].
  intros k Hk. destruct (map_result_ok_inv _ _ _ Hnom k Hk) as [v Hv].
  unfold nominal_value in Hv.
  destruct (get_nominal_domain_param (wrapped_env a) !! k); [eauto | done].
Qed.

Lemma length_map_result {A B} (f : A -> Result B) xs ys :
  map_result f xs = Ok ys -> length ys = length xs.
Proof.
  revert ys. induction xs as [| x xs IH]; intros ys; simpl.
  - by intros [= <-].
  - destruct (f x); [| done]. destruct (map_result f xs); [| done].
    intros [= <-]. simpl. f_equal. by apply IH.
Qed.

Lemma get_reward_ok (rg : RewardGenerator) (ro : StepSequence) :
  preprocessable ro -> exists q, get_reward rg (PyStepSequence ro) = Ok q.
Proof.
  intros Hro. unfold get_reward.
  destruct (preprocess_rollout_ok ro Hro) as [feats ->]. eauto.
Qed.


Lemma dispatch_run (r : Runtime) (p : Pool) (ds : list (gmap string float)) :
  pool (self r) = Some p ->
  dispatch ds r
  = (Ok (eval_domain_params p (wrapped_env (self r)) (inner_policy (self r)) ds).1,
     {| self :=
          with_pool
            (Some (eval_domain_params p (wrapped_env (self r))
                     (inner_policy (self r)) ds).2) (self r);
        np_random := np_random r;
        dispatched := dispatched r ++ [ds];
        warnings := warnings r |}).
Proof.
  intros Hp. unfold dispatch. rewrite Hp.
  by destruct (eval_domain_params _ _ _ _).
Qed.

Lemma draw_run (r : Runtime) (n : nat) :
  draw n r
  = (Ok (random_sample (np_random r) n).1,
     {| self := self r; np_random := (random_sample (np_random r) n).2;
        dispatched := dispatched r; warnings := warnings r |}).
Proof. unfold draw. by destruct (random_sample _ _). Qed.

Lemma rewards_ok (rg : RewardGenerator) p e pi ds :
  exists rewards,
    map_result (fun traj => get_reward rg (PyStepSequence traj))
      (eval_domain_params p e pi ds).1 = Ok rewards.
Proof.
  apply map_result_ok.
  eapply Forall_impl; [apply rollouts_preprocessable |].
  intros ro Hro. by apply get_reward_ok.
Qed.

Lemma length_update_rule step_length (v act : list float) :
  length act = length v -> length (update_rule step_length v act) = length v.
Proof.
  intros Hl. unfold update_rule.
  rewrite length_np_clip, length_zip_with, length_map. lia.
Qed.

Lemma step_run (r : Runtime) (i : nat) (act v : list float) (c : Z) (p : Pool)
    (nom : list float) :
  inner_parameter_state (self r) !! i = Some v ->
  count (self r) !! i = Some c ->
  pool (self r) = Some p ->
  nominal (self r) = Ok nom ->
  length v = length (parameters (self r)) ->
  length act = length v ->
  let final :=
    if np_mod_is_zero (c + 1) (horizon (self r))
    then (random_sample (np_random r) (length (parameters (self r)))).1
    else update_rule (svpg_max_step_length (self r)) v act in
  exists reward info r',
    step act (Some (Z.of_nat i)) r
    = (Ok (final, reward, bool_decide (max_steps (self r) - 1 <= c), info), r') /\
    inner_parameter_state (self r')
    = <[i := final]> (inner_parameter_state (self r)) /\
    count (self r') = <[i := c + 1]> (count (self r)) /\
    horizon_count (self r') = horizon_count (self r) + 1 /\
    same_configuration (self r) (self r') /\
    is_Some (pool (self r')).
Proof.
  intros Hv Hc Hp Hnom Hlv Hla final.
  destruct (nominal_dict_ok _ _ Hnom) as [nd Hnd].
  assert (length nom = length v) as Hlnom.
  { unfold nominal in Hnom. rewrite (length_map_result _ _ _ Hnom).
    unfold params. by rewrite length_map. }
  unfold step.
  rewrite (bind_run _ _ r r r) by done.
  rewrite (bind_run _ _ _ _ _ (get_row_run _ _ _ Hv)).
  unfold lift at 1.
  rewrite broadcast_same_length by (by rewrite length_map).
  rewrite (bind_run _ _ r r _ eq_refl).
  fold (update_rule (svpg_max_step_length (self r)) v act).
  set (moved := update_rule (svpg_max_step_length (self r)) v act).
  assert (length moved = length v) as Hlm by (by apply length_update_rule).
  rewrite (bind_run _ _ _ _ _ (set_row_run r i v moved Hv Hlm)).
  set (r1 := on_self _ r).
  assert (inner_parameter_state (self r1) !! i = Some moved) as Hv1.
  { simpl. apply list_lookup_insert_eq. by eapply lookup_lt_Some. }
  rewrite (bind_run _ _ _ _ _ (get_row_run r1 i _ Hv1)).
  unfold lift at 1. rewrite Hnom, (bind_run _ _ r1 r1 _ eq_refl).
  unfold lift at 1.
  rewrite broadcast_same_length by (rewrite length_map; congruence).
  rewrite (bind_run _ _ r1 r1 _ eq_refl).
  unfold lift at 1. rewrite Hnd, (bind_run _ _ r1 r1 _ eq_refl).
  rewrite (bind_run _ _ _ _ _ (dispatch_run r1 p _ Hp)).
  set (rand := (eval_domain_params p _ _ _).1).
  set (r2 := Build_Runtime _ _ _ _).
  rewrite (bind_run _ _ _ _ _ (dispatch_run r2 _ _ eq_refl)).
  set (ref := (eval_domain_params _ _ _ _).1).
  set (r3 := Build_Runtime _ _ _ _).
  destruct (rewards_ok (discriminator (self r)) p (wrapped_env (self r1))
              (inner_policy (self r1)) 
              (list_times
                 (array_to_dict (self r)
                    (zip_with fmul
                       (map (fun x => (x + Num (1 # 2))%np) moved) nom))
                 (num_trajs (self r)))) as [rewards Hrew].
  fold rand in Hrew.
  unfold lift at 1. rewrite Hrew, (bind_run _ _ r3 r3 _ eq_refl).
  rewrite (bind_run _ _ _ _ _ (get_count_run r3 i c Hc)).
  rewrite (bind_run _ _ _ _ _
             (set_count_run r3 i (c + 1) (lookup_lt_Some _ _ _ Hc))).
  set (r4 := on_self _ r3).
  rewrite (bind_run (modify _) _ r4 _ _ eq_refl).
  set (r5 := on_self _ r4).
  assert (count (self r5) !! i = Some (c + 1)) as Hc5.
  { simpl. apply list_lookup_insert_eq. by eapply lookup_lt_Some. }
  rewrite (bind_run _ _ _ _ _ (get_count_run r5 i _ Hc5)).
  assert (inner_parameter_state (self r5) !! i = Some moved) as Hv5 by exact Hv1.
  subst final. destruct (np_mod_is_zero (c + 1) (horizon (self r))) eqn:Hz.
  - set (n := length (parameters (self r))).
    set (fresh := (random_sample (np_random r) n).1).
    assert (length fresh = length moved) as Hlf.
    { unfold fresh. rewrite random_sample_length. unfold n. congruence. }
    set (r6 := Build_Runtime (self r5) (random_sample (np_random r5) n).2
                 (dispatched r5) (warnings r5)).
    assert ((let* v0 := draw n in set_row (Z.of_nat i) v0)%py r5
            = (Ok tt,
               on_self (with_inner_parameter_state
                          (<[i := fresh]> (inner_parameter_state (self r6))))
                 r6)) as Hredraw.
    { rewrite (bind_run _ _ _ _ _ (draw_run r5 n)).
      exact (set_row_run r6 i moved fresh Hv5 Hlf). }
    rewrite (bind_run _ _ _ _ _ Hredraw).
    set (r7 := on_self _ r6).
    assert (inner_parameter_state (self r7) !! i = Some fresh) as Hv7.
    { simpl. apply list_lookup_insert_eq. rewrite length_insert.
      by eapply lookup_lt_Some. }
    rewrite (bind_run _ _ _ _ _ (get_row_run r7 i _ Hv7)).
    do 3 eexists. split; [reflexivity |]. simpl.
    rewrite list_insert_insert_eq.
    repeat split; eauto.
  - rewrite (bind_run (ret _) _ r5 _ _ eq_refl).
    rewrite (bind_run _ _ _ _ _ (get_row_run r5 i _ Hv5)).
    do 3 eexists. split; [reflexivity |]. simpl.
    repeat split; eauto.
Qed.

Lemma in_unit_of_sample (xs : list float) :
  Forall in_half_open_unit xs -> Forall in_unit xs.
Proof.
  intros Hxs. eapply Forall_impl; [exact Hxs |].
  intros [q | | |] Hq; try done. destruct Hq as [Hlo Hhi].
  apply in_unit_Num. split; [exact Hlo |]. by apply Qlt_le_weak.
Qed.

(** The clipped action times a finite step length is a number. *)
Lemma scaled_action_finite (step_length x : float) :
  isfinite step_length = true -> isnan x = false ->
  isfinite (clip (Num (-1)) (Num 1) x * step_length)%np = true.
Proof.
  intros Hs Hx. destruct step_length as [s | | |]; try done.
  by destruct (clip_bounds (-1) 1 x) as (q & -> & _).
Qed.

Lemma fadd_finite_no_nan (x y : float) :
  isnan x = false -> isfinite y = true -> isnan (x + y)%np = false.
Proof. by destruct x, y. Qed.

Lemma moved_no_nan step_length (v act : list float) :
  Forall (fun x => isnan x = false) v ->
  Forall (fun x => isnan x = false) act ->
  isfinite step_length = true ->
  Forall (fun x => isnan x = false)
    (zip_with fadd v
       (map (fun x => (clip (Num (-1)) (Num 1) x * step_length)%np) act)).
Proof.
  intros Hv Hact Hs. revert act Hact.
  induction Hv as [| x v Hx Hv IH]; intros act Hact; [done |].
  destruct Hact as [| a act Ha Hact]; [done |]. simpl. constructor.
  - apply fadd_finite_no_nan; [exact Hx | by apply scaled_action_finite].
  - by apply IH.
Qed.

Lemma update_rule_unit step_length (v act : list float) :
  Forall (fun x => isnan x = false) v ->
  Forall (fun x => isnan x = false) act ->
  isfinite step_length = true ->
  Forall in_unit (update_rule step_length v act).
Proof. intros Hv Hact Hs. by apply np_clip_unit, moved_no_nan. Qed.

(** C1 (amended). One [step] of particle [i] with an action of the width
    of the parameter vector returns, and the vector it returns, which is row
    [i] of the matrix after the call, lies component-wise in [0, 1],
    whether it was clipped or drawn afresh, provided that neither the
    current vector nor the action has a NaN component and that the step
    length is finite. *)
Theorem step_keeps_unit_interval (r : Runtime) (i : nat) (act v : list float)
    (c : Z) (p : Pool) (nom : list float) :
  inner_parameter_state (self r) !! i = Some v ->
  count (self r) !! i = Some c ->
  pool (self r) = Some p ->
  nominal (self r) = Ok nom ->
  length v = length (parameters (self r)) ->
  length act = length v ->
  Forall (fun x => isnan x = false) v ->
  Forall (fun x => isnan x = false) act ->
  isfinite (svpg_max_step_length (self r)) = true ->
  exists next_state reward done info r',
    step act (Some (Z.of_nat i)) r
    = (Ok (next_state, reward, done, info), r') /\
    inner_parameter_state (self r') !! i = Some next_state /\
    Forall in_unit next_state.
Proof.
  intros Hv Hc Hp Hnom Hlv Hla Hnv Hna Hs.
  destruct (step_run r i act v c p nom Hv Hc Hp Hnom Hlv Hla)
    as (reward & info & r' & Hrun & Hips & _).
  do 5 eexists. split; [exact Hrun |]. split.
  - rewrite Hips. apply list_lookup_insert_eq. by eapply lookup_lt_Some.
  - destruct (np_mod_is_zero _ _).
    + apply in_unit_of_sample, random_sample_range.
    + by apply update_rule_unit.
Qed.

Lemma np_mod_is_zero_true (c h : Z) :
  np_mod_is_zero c h = true <-> h <> 0 /\ exists m, c = m * h.
Proof.
  unfold np_mod_is_zero. destruct (Z.eqb_spec h 0) as [-> | Hh].
  - split; [done | by intros [? _]].
  - rewrite Z.eqb_eq. split.
    + intros Hm. split; [done |]. exists (c / h).
      rewrite (Z.div_mod c h Hh) at 1. lia.
    + intros [_ [m ->]]. by apply Z.mod_mul.
Qed.

(** C2. When the counter of the particle, after the increment of this
    step, is a positive multiple of [horizon], the vector [step] returns is
    the draw that [random_sample] makes from the random source as it was
    before the call, whatever the vector and the action were; when the
    counter is no multiple of [horizon], it is
    [clip(v + clip(a, -1, 1) * step_length, 0, 1)]. *)
Theorem step_next_state (r : Runtime) (i : nat) (act v : list float)
    (c : Z) (p : Pool) (nom : list float) :
  inner_parameter_state (self r) !! i = Some v ->
  count (self r) !! i = Some c ->
  pool (self r) = Some p ->
  nominal (self r) = Ok nom ->
  length v = length (parameters (self r)) ->
  length act = length v ->
  exists next_state reward done info r',
    step act (Some (Z.of_nat i)) r
    = (Ok (next_state, reward, done, info), r') /\
    (0 < c + 1 /\ (exists m, c + 1 = m * horizon (self r)) ->
     next_state
     = (random_sample (np_random r) (length (parameters (self r)))).1) /\
    ((forall m, c + 1 <> m * horizon (self r)) ->
     next_state = update_rule (svpg_max_step_length (self r)) v act).
Proof.
  intros Hv Hc Hp Hnom Hlv Hla.
  destruct (step_run r i act v c p nom Hv Hc Hp Hnom Hlv Hla)
    as (reward & info & r' & Hrun & _).
  do 5 eexists. split; [exact Hrun |].
  destruct (np_mod_is_zero (c + 1) (horizon (self r))) eqn:Hz.
  - split; [done |]. intros Hno.
    apply np_mod_is_zero_true in Hz as [_ [m Hm]]. by destruct (Hno m).
  - split; [| done]. intros [Hpos [m Hm]].
    assert (np_mod_is_zero (c + 1) (horizon (self r)) = true) as Hz'.
    { apply np_mod_is_zero_true. split; [| eauto]. intros Hh.
      rewrite Hh in Hm. lia. }
    congruence.
Qed.

(** ** The [done] flag *)

Lemma nominal_same_configuration (a a' : SVPGAdapter) :
  same_configuration a a' -> nominal a' = nominal a.
Proof.
  intros (Henv & Hpar & _). unfold nominal, params.
  rewrite Hpar. apply f_equal2; [| done].
  unfold nominal_value. by rewrite Henv.
Qed.

(** [reset(i)] without initial state: the counter of particle [i] is zero
    and its vector is drawn afresh. *)
Lemma reset_particle_run (r : Runtime) (i : nat) (v : list float) (c : Z) :
  inner_parameter_state (self r) !! i = Some v ->
  count (self r) !! i = Some c ->
  length v = length (parameters (self r)) ->
  exists fresh r',
    reset (Some (Z.of_nat i)) None None r = (Ok fresh, r') /\
    inner_parameter_state (self r') !! i = Some fresh /\
    length fresh = length (parameters (self r)) /\
    count (self r') !! i = Some 0 /\
    same_configuration (self r) (self r') /\
    pool (self r') = pool (self r).
Proof.
  intros Hv Hc Hlv.
  set (n := length (parameters (self r))).
  set (fresh := (random_sample (np_random r) n).1).
  assert (length fresh = n) as Hlf by apply random_sample_length.
  unfold reset.
  rewrite (bind_run (assert_is_none None) _ r r tt eq_refl).
  rewrite (bind_run _ _ _ _ _
             (set_count_run r i 0 (lookup_lt_Some _ _ _ Hc))).
  set (r1 := on_self _ r).
  assert ((let* r0 := get in
           let* v0 := draw (length (parameters (self r0))) in
           set_row (Z.of_nat i) v0)%py r1
          = (Ok tt,
             on_self (with_inner_parameter_state
                        (<[i := fresh]> (inner_parameter_state (self r))))
               (Build_Runtime (self r1) (random_sample (np_random r) n).2
                  (dispatched r1) (warnings r1)))) as Hset.
  { rewrite (bind_run get _ r1 r1 r1 eq_refl).
    rewrite (bind_run _ _ _ _ _ (draw_run r1 _)).
    apply (set_row_run (Build_Runtime (self r1) _ _ _) i v fresh Hv).
    rewrite Hlf. symmetry. exact Hlv. }
  rewrite (bind_run _ _ _ _ _ Hset).
  set (r2 := on_self _ _).
  assert (inner_parameter_state (self r2) !! i = Some fresh) as Hv2.
  { simpl. apply list_lookup_insert_eq. by eapply lookup_lt_Some. }
  exists fresh, r2. split; [exact (get_row_run r2 i fresh Hv2) |].
  split; [exact Hv2 |]. split; [exact Hlf |]. split.
  - simpl. apply list_lookup_insert_eq. by eapply lookup_lt_Some.
  - repeat split; reflexivity.
Qed.

(** From a counter [c], the [n]-th further call (counting from zero)
    reads the counter [c + n]. *)
Lemma episode_flags (i : nat) (nom : list float) (acts : list (list float)) :
  forall (r : Runtime) (v : list float) (c : Z) (p : Pool),
    inner_parameter_state (self r) !! i = Some v ->
    count (self r) !! i = Some c ->
    pool (self r) = Some p ->
    nominal (self r) = Ok nom ->
    length v = length (parameters (self r)) ->
    Forall (fun act => length act = length (parameters (self r))) acts ->
    exists flags r',
      episode (Z.of_nat i) acts r = (Ok flags, r') /\
      flags
      = map (fun n => bool_decide (max_steps (self r) - 1 <= c + Z.of_nat n))
          (seq 0 (length acts)).
Proof.
  induction acts as [| act acts IH]; intros r v c p Hv Hc Hp Hnom Hlv Hacts.
  - exists [], r. done.
  - apply Forall_cons in Hacts as [Hact Hacts].
    destruct (step_run r i act v c p nom Hv Hc Hp Hnom Hlv)
      as (reward & info & r1 & Hrun & Hips & Hcnt & _ & Hcfg & [p1 Hp1]);
      [congruence |].
    pose proof Hcfg as (_ & Hpar & _ & _ & _ & _ & _ & Hmax & _).
    set (final := if np_mod_is_zero (c + 1) (horizon (self r))
                  then (random_sample (np_random r)
                          (length (parameters (self r)))).1
                  else update_rule (svpg_max_step_length (self r)) v act)
      in *.
    destruct (IH r1 final (c + 1) p1) as (flags & r' & Hrest & Hflags).
    + rewrite Hips. apply list_lookup_insert_eq. by eapply lookup_lt_Some.
    + rewrite Hcnt. apply list_lookup_insert_eq. by eapply lookup_lt_Some.
    + exact Hp1.
    + by rewrite (nominal_same_configuration _ _ Hcfg).
    + rewrite Hpar. unfold final. destruct (np_mod_is_zero _ _).
      * apply random_sample_length.
      * rewrite length_update_rule; congruence.
    + by rewrite Hpar.
    + eexists. exists r'. cbn [episode].
      rewrite (bind_run _ _ _ _ _ Hrun), (bind_run _ _ _ _ _ Hrest).
      split; [reflexivity |]. cbn [length seq map snd fst].
      f_equal.
      * apply bool_decide_ext. lia.
      * rewrite Hflags, Hmax, <- seq_shift, map_map.
        apply map_ext. intros n. apply bool_decide_ext. lia.
Qed.

(** C4. The flag [done] that [step] returns is true exactly when the
    counter of the particle, read before the increment, is at least
    [max_steps - 1]. After [reset(i)] the [n]-th call of [step] for
    particle [i] (counting from one) returns [done = (max_steps <= n)]:
    false for the first [max_steps - 1] calls and true for call number
    [max_steps]. *)
Theorem step_done_flag (r : Runtime) (i : nat) (v : list float) (c : Z)
    (p : Pool) (nom : list float) :
  inner_parameter_state (self r) !! i = Some v ->
  count (self r) !! i = Some c ->
  pool (self r) = Some p ->
  nominal (self r) = Ok nom ->
  length v = length (parameters (self r)) ->
  (forall act, length act = length v ->
     exists next_state reward done info r',
       step act (Some (Z.of_nat i)) r
       = (Ok (next_state, reward, done, info), r') /\
       (done = true <-> max_steps (self r) - 1 <= c)) /\
  (forall acts,
     Forall (fun act => length act = length v) acts ->
     exists fresh r0 flags r',
       reset (Some (Z.of_nat i)) None None r = (Ok fresh, r0) /\
       episode (Z.of_nat i) acts r0 = (Ok flags, r') /\
       length flags = length acts /\
       forall n, (1 <= n <= length acts)%nat ->
         flags !! (n - 1)%nat
         = Some (bool_decide (max_steps (self r) <= Z.of_nat n))).
Proof.
  intros Hv Hc Hp Hnom Hlv. split.
  - intros act Hact.
    destruct (step_run r i act v c p nom Hv Hc Hp Hnom Hlv Hact)
      as (reward & info & r' & Hrun & _).
    do 5 eexists. split; [exact Hrun |]. apply bool_decide_eq_true.
  - intros acts Hacts.
    destruct (reset_particle_run r i v c Hv Hc Hlv)
      as (fresh & r0 & Hreset & Hv0 & Hlf & Hc0 & Hcfg & Hp0).
    pose proof Hcfg as (_ & Hpar & _ & _ & _ & _ & _ & Hmax & _).
    destruct (episode_flags i nom acts r0 fresh 0 p)
      as (flags & r' & Hrun & Hflags).
    + exact Hv0.
    + exact Hc0.
    + congruence.
    + by rewrite (nominal_same_configuration _ _ Hcfg).
    + congruence.
    + eapply Forall_impl; [exact Hacts |]. simpl. congruence.
    + exists fresh, r0, flags, r'. split; [exact Hreset |].
      split; [exact Hrun |]. subst flags. split.
      * by rewrite length_map, length_seq.
      * intros n Hn. rewrite list_lookup_fmap, lookup_seq_lt by lia.
        simpl. f_equal. rewrite Hmax. apply bool_decide_ext. lia.
Qed.

(** ** Frame of the index-scoped calls *)

Lemma np_index_nat_inv (n i k : nat) :
  np_index n (Z.of_nat i) = Ok k -> k = i.
Proof.
  unfold np_index. repeat case_decide; try done; [| lia].
  intros [= <-]. apply Nat2Z.id.
Qed.

Section Frame.

Context {X : Type} (f : SVPGAdapter -> X) (i : nat).

(** [f] does not look at the pool, at row [i] or at counter [i]. *)
Hypothesis f_pool : forall p a, f (with_pool p a) = f a.
Hypothesis f_row :
  forall v a,
    f (with_inner_parameter_state (<[i := v]> (inner_parameter_state a)) a)
    = f a.
Hypothesis f_count :
  forall c a, f (with_count (<[i := c]> (count a)) a) = f a.

Lemma keeps_ret {A} (a : A) : keeps f (ret a).
Proof. by intros r. Qed.

Lemma keeps_raise {A} e : keeps f (raise (A := A) e).
Proof. by intros r. Qed.

Lemma keeps_get : keeps f get.
Proof. by intros r. Qed.

Lemma keeps_lift {A} (x : Result A) : keeps f (lift x).
Proof. by intros r. Qed.

Lemma keeps_bind {A B} (m : M Runtime A) (k : A -> M Runtime B) :
  keeps f m -> (forall a, keeps f (k a)) -> keeps f (bind m k).
Proof.
  intros Hm Hk r. specialize (Hm r). unfold bind.
  destruct (m r) as [[a | e] r1]; simpl in *; [| done].
  by rewrite Hk.
Qed.

Lemma keeps_modify (g : Runtime -> Runtime) :
  (forall r, f (self (g r)) = f (self r)) -> keeps f (modify g).
Proof. intros Hg r. apply Hg. Qed.

Lemma keeps_assert_is_none {A} (x : option A) : keeps f (assert_is_none x).
Proof. destruct x; by intros r. Qed.

Lemma keeps_get_row k : keeps f (get_row k).
Proof. apply keeps_bind; [apply keeps_get | intros; apply keeps_lift]. Qed.

Lemma keeps_get_count k : keeps f (get_count k).
Proof. apply keeps_bind; [apply keeps_get | intros; apply keeps_lift]. Qed.

Lemma keeps_draw n : keeps f (draw n).
Proof. intros r. unfold draw. by destruct (random_sample _ _). Qed.

Lemma keeps_dispatch ds : keeps f (dispatch ds).
Proof.
  intros r. unfold dispatch. destruct (pool (self r)); [| done].
  destruct (eval_domain_params _ _ _ _). simpl. apply f_pool.
Qed.

Lemma keeps_set_row val : keeps f (set_row (Z.of_nat i) val).
Proof.
  intros r. unfold set_row, bind, get, lift, modify.
  destruct (np_index _ _) as [k |] eqn:Hk; [| done].
  apply np_index_nat_inv in Hk as ->.
  destruct (getitem _ _); [| done]. destruct (assign_row _ _); [| done].
  simpl. apply f_row.
Qed.

Lemma keeps_set_count c : keeps f (set_count (Z.of_nat i) c).
Proof.
  intros r. unfold set_count, bind, get, lift, modify.
  destruct (np_index _ _) as [k |] eqn:Hk; [| done].
  apply np_index_nat_inv in Hk as ->. simpl. apply f_count.
Qed.

(** [reset(i, init_state, domain_param)] keeps [f]. *)
Lemma keeps_reset init_state domain_param :
  keeps f (reset (Some (Z.of_nat i)) init_state domain_param).
Proof.
  unfold reset.
  apply keeps_bind; [apply keeps_assert_is_none | intros _].
  apply keeps_bind; [apply keeps_set_count | intros _].
  apply keeps_bind; [| intros _; apply keeps_get_row].
  destruct init_state; [apply keeps_set_row |].
  apply keeps_bind; [apply keeps_get | intros r].
  apply keeps_bind; [apply keeps_draw | intros v; apply keeps_set_row].
Qed.

(** What [step] does after the counter management. *)
Lemma keeps_step_tail {A} c h n (k : list float -> M Runtime A) :
  (forall row, keeps f (k row)) ->
  keeps f ((if np_mod_is_zero c h
            then let* v := draw n in set_row (Z.of_nat i) v
            else ret tt) ;;
           let* row := get_row (Z.of_nat i) in k row)%py.
Proof.
  intros Hk. apply keeps_bind.
  - destruct (np_mod_is_zero c h); [| apply keeps_ret].
    apply keeps_bind; [apply keeps_draw | intros; apply keeps_set_row].
  - intros _. apply keeps_bind; [apply keeps_get_row | exact Hk].
Qed.

(** [step(act, i)] keeps [f] when [f] does not look at [horizon_count]
    either. *)
Lemma keeps_step act :
  (forall h a, f (with_horizon_count h a) = f a) ->
  keeps f (step act (Some (Z.of_nat i))).
Proof.
  intros f_hc. unfold step.
  apply keeps_bind; [apply keeps_get | intros r].
  apply keeps_bind; [apply keeps_get_row | intros row].
  apply keeps_bind; [apply keeps_lift | intros moved].
  apply keeps_bind; [apply keeps_set_row | intros _].
  apply keeps_bind; [apply keeps_get_row | intros row'].
  apply keeps_bind; [apply keeps_lift | intros nom].
  apply keeps_bind; [apply keeps_lift | intros scaled].
  apply keeps_bind; [apply keeps_lift | intros nd].
  apply keeps_bind; [apply keeps_dispatch | intros rand].
  apply keeps_bind; [apply keeps_dispatch | intros ref].
  apply keeps_bind; [apply keeps_lift | intros rewards].
  apply keeps_bind; [apply keeps_get_count | intros c].
  apply keeps_bind; [apply keeps_set_count | intros _].
  apply keeps_bind; [apply keeps_modify; intros; apply f_hc | intros _].
  apply keeps_bind; [apply keeps_get_count | intros c'].
  apply keeps_step_tail. intros. apply keeps_ret.
Qed.

End Frame.

Lemma bumps_bind_r {A B} (m : M Runtime A) (k : A -> M Runtime B) :
  keeps horizon_count m -> (forall a, bumps (k a)) -> bumps (bind m k).
Proof.
  intros Hm Hk r. specialize (Hm r). unfold bind.
  destruct (m r) as [[a | e] r1]; simpl in *; [| done].
  specialize (Hk a r1). destruct (k a r1) as [[b | e] r2]; simpl in *; [| done].
  by rewrite Hk, Hm.
Qed.

Lemma bumps_bind_l {A B} (m : M Runtime A) (k : A -> M Runtime B) :
  bumps m -> (forall a, keeps horizon_count (k a)) -> bumps (bind m k).
Proof.
  intros Hm Hk r. specialize (Hm r). unfold bind.
  destruct (m r) as [[a | e] r1]; simpl in *; [| done].
  specialize (Hk a r1). destruct (k a r1) as [[b | e] r2]; simpl in *; [| done].
  by rewrite Hk, Hm.
Qed.

(** A [step] that returns has incremented [horizon_count] once. *)
Lemma bumps_step act (i : nat) : bumps (step act (Some (Z.of_nat i))).
Proof.
  unfold step.
  apply bumps_bind_r; [apply keeps_get | intros r].
  apply bumps_bind_r; [apply keeps_get_row | intros row].
  apply bumps_bind_r; [apply keeps_lift | intros moved].
  apply bumps_bind_r; [by apply keeps_set_row | intros _].
  apply bumps_bind_r; [apply keeps_get_row | intros row'].
  apply bumps_bind_r; [apply keeps_lift | intros nom].
  apply bumps_bind_r; [apply keeps_lift | intros scaled].
  apply bumps_bind_r; [apply keeps_lift | intros nd].
  apply bumps_bind_r; [by apply keeps_dispatch | intros rand].
  apply bumps_bind_r; [by apply keeps_dispatch | intros ref].
  apply bumps_bind_r; [apply keeps_lift | intros rewards].
  apply bumps_bind_r; [apply keeps_get_count | intros c].
  apply bumps_bind_r; [by apply keeps_set_count | intros _].
  apply bumps_bind_l; [by intros r0 | intros _].
  apply keeps_bind; [apply keeps_get_count | intros c'].
  apply keeps_step_tail; [done | intros; apply keeps_ret].
Qed.

Lemma particle_insert_row (i j : nat) v (a : SVPGAdapter) :
  i <> j ->
  particle j
    (with_inner_parameter_state (<[i := v]> (inner_parameter_state a)) a)
  = particle j a.
Proof.
  intros Hij. unfold particle. simpl. by rewrite list_lookup_insert_ne.
Qed.

Lemma particle_insert_count (i j : nat) c (a : SVPGAdapter) :
  i <> j ->
  particle j (with_count (<[i := c]> (count a)) a) = particle j a.
Proof.
  intros Hij. unfold particle. simpl. by rewrite list_lookup_insert_ne.
Qed.

(** C10. For distinct particles [i] and [j], neither [step(act, i)] nor
    [reset(i, init_state)] changes the parameter vector or the counter of
    particle [j], however the call ends; a [step] that returns has
    incremented [horizon_count] by one. *)
Theorem index_scoped_frame (i j : nat) (r : Runtime) :
  i <> j ->
  (forall act res r',
     step act (Some (Z.of_nat i)) r = (res, r') ->
     particle j (self r') = particle j (self r) /\
     (forall out, res = Ok out ->
        horizon_count (self r') = horizon_count (self r) + 1)) /\
  (forall init_state domain_param res r',
     reset (Some (Z.of_nat i)) init_state domain_param r = (res, r') ->
     particle j (self r') = particle j (self r)).
Proof.
  intros Hij. split.
  - intros act res r' Hrun. split.
    + pose proof (keeps_step (particle j) i) as Hkeep.
      specialize (Hkeep (fun _ _ => eq_refl)
                    (fun v a => particle_insert_row i j v a Hij)
                    (fun c a => particle_insert_count i j c a Hij)
                    act (fun _ _ => eq_refl) r).
      by rewrite Hrun in Hkeep.
    + intros out ->. pose proof (bumps_step act i r) as Hbump.
      by rewrite Hrun in Hbump.
  - intros init_state domain_param res r' Hrun.
    pose proof (keeps_reset (particle j) i
                  (fun v a => particle_insert_row i j v a Hij)
                  (fun c a => particle_insert_count i j c a Hij)
                  init_state domain_param r) as Hkeep.
    by rewrite Hrun in Hkeep.
Qed.

(** ** Construction without a worker pool *)

Lemma raises_bind {S A B} (m : M S A) (k : A -> M S B) (s : S) :
  (forall a s', m s = (Ok a, s') -> raises (k a s')) -> raises (bind m k s).
Proof.
  intros Hk. unfold bind. destruct (m s) as [[a | e] s'].
  - by apply Hk.
  - by exists e, s'.
Qed.

Lemma get_row_state k (r r' : Runtime) res :
  get_row k r = (res, r') -> r' = r.
Proof. unfold get_row, bind, get, lift. by intros [= _ <-]. Qed.

Lemma set_row_pool k val (r r' : Runtime) res :
  set_row k val r = (res, r') -> pool (self r') = pool (self r).
Proof.
  unfold set_row, bind, get, lift, modify.
  destruct (np_index _ _); [| by intros [= _ <-]].
  destruct (getitem _ _); [| by intros [= _ <-]].
  destruct (assign_row _ _); by intros [= _ <-].
Qed.

Lemma dispatch_without_pool ds (r : Runtime) :
  pool (self r) = None -> dispatch ds r = (Raise (AttributeError "pool"), r).
Proof. intros Hp. unfold dispatch. by rewrite Hp. Qed.

(** Without a bound [pool], [step] ends with an exception for every action
    and every index. *)
Lemma step_raises_without_pool act i (r : Runtime) :
  pool (self r) = None -> raises (step act i r).
Proof.
  intros Hp. destruct i as [i |]; [| by do 2 eexists].
  unfold step.
  apply raises_bind. intros ? ? [= <- <-].
  apply raises_bind. intros row r1 ->%get_row_state.
  apply raises_bind. intros moved ? [= _ <-].
  apply raises_bind. intros [] r2 Hp2%set_row_pool.
  apply raises_bind. intros row' ? ->%get_row_state.
  apply raises_bind. intros nom ? [= _ <-].
  apply raises_bind. intros scaled ? [= _ <-].
  apply raises_bind. intros nd ? [= _ <-].
  apply raises_bind. intros rand r3.
  rewrite dispatch_without_pool by congruence. done.
Qed.

Lemma eval_states_raises_without_pool states (r : Runtime) :
  pool (self r) = None -> raises (eval_states states r).
Proof.
  intros Hp. unfold eval_states.
  apply raises_bind. intros ? ? [= <- <-].
  apply raises_bind. intros sstates ? [= _ <-].
  apply raises_bind. intros rand r1.
  rewrite dispatch_without_pool by done. done.
Qed.

Lemma draw_matrix_run (rows n : nat) (r : Runtime) :
  exists m g,
    draw_matrix rows n r
    = (Ok m, Build_Runtime (self r) g (dispatched r) (warnings r)).
Proof.
  revert r. induction rows as [| rows IH]; intros r.
  - exists [], (np_random r). by destruct r.
  - destruct (IH (Build_Runtime (self r) (random_sample (np_random r) n).2
                    (dispatched r) (warnings r))) as (m & g & Hm).
    do 2 eexists. cbn [draw_matrix].
    rewrite (bind_run _ _ _ _ _ (draw_run r n)), (bind_run _ _ _ _ _ Hm).
    reflexivity.
Qed.

(** [reset()] of all particles returns; it only assigns the matrix and the
    counters and advances the random source. *)
Lemma reset_all_run (r : Runtime) :
  exists m g,
    reset None None None r
    = (Ok m,
       Build_Runtime
         (with_inner_parameter_state m
            (with_count (replicate (num_particles (self r)) 0) (self r)))
         g (dispatched r) (warnings r)).
Proof.
  unfold reset.
  rewrite (bind_run (assert_is_none None) _ _ _ tt eq_refl).
  rewrite (bind_run (modify _) _ _ _ tt eq_refl).
  set (r1 := on_self _ r).
  destruct (draw_matrix_run (num_particles (self r1))
              (length (parameters (self r1))) r1) as (m & g & Hm).
  exists m, g.
  rewrite (bind_run (bind get _) _ r1
             (on_self (with_inner_parameter_state m)
                (Build_Runtime (self r1) g (dispatched r1) (warnings r1)))
             tt).
  - reflexivity.
  - rewrite (bind_run get _ r1 r1 r1 eq_refl).
    by rewrite (bind_run _ _ _ _ _ Hm).
Qed.

(** C9. What the constructor does when [SamplerPool(num_workers)] fails its
    assertion: it completes, no warning is issued and the attribute [pool]
    is left unbound; on the adapter so obtained every call of [step] and
    of [eval_states] ends with an exception. *)
Theorem init_without_pool (env : Env) (domain_params : list DomainParam)
    (policy : Policy) (rg : RewardGenerator) (particles : nat)
    (step_length : float) (svpg_horizon : Z) (num_rollouts_per_config : Z)
    (num_workers : Z) (steps : Z) (g : Rng) :
  SamplerPool num_workers = Raise AssertionError ->
  exists r,
    init env domain_params policy rg particles step_length svpg_horizon
      num_rollouts_per_config num_workers steps g
    = Ok r /\
    warnings r = [] /\
    pool (self r) = None /\
    (forall act i, raises (step act i r)) /\
    (forall states, raises (eval_states states r)).
Proof.
  intros Hpool. unfold init, try_sampler_pool. rewrite Hpool.
  match goal with
  | |- context [reset None None None ?r0] =>
      destruct (reset_all_run r0) as (m & g' & ->)
  end.
  eexists. split; [reflexivity |]. split; [reflexivity |].
  split; [reflexivity |]. split.
  - intros act i. by apply step_raises_without_pool.
  - intros states. by apply eval_states_raises_without_pool.
Qed.

End Properties.

(** * Concrete runs

    The contracts hold for the concrete collaborators, and each property
    above is instantiated on the two-particle adapter [demo_runtime]. *)

Lemma demo_random_sample_length (g : @Rng demo) (n : nat) :
  length (@random_sample demo g n).1 = n.
Proof. simpl. by rewrite length_map, length_seq. Qed.

Lemma demo_random_sample_range (g : @Rng demo) (n : nat) :
  Forall in_half_open_unit (@random_sample demo g n).1.
Proof.
  simpl. apply Forall_map, Forall_true. intros j.
  unfold in_half_open_unit, Qle, Qlt. simpl. lia.
Qed.

Lemma demo_rollouts_preprocessable (p : @Pool demo) (e : @Env demo)
    (pi : @Policy demo) (ds : list (gmap string float)) :
  Forall preprocessable (@eval_domain_params demo p e pi ds).1.
Proof.
  simpl. apply Forall_map, Forall_true. intros d.
  unfold preprocessable. simpl. lia.
Qed.

Lemma demo_nominal_available (k : string) :
  k ∈ params demo_adapter ->
  is_Some (@get_nominal_domain_param demo (wrapped_env demo_adapter) !! k).
Proof.
  intros Hk. apply list_elem_of_In in Hk.
  destruct Hk as [<- | [<- | []]]; eexists; reflexivity.
Qed.

(** An ordinary step of particle 0: the counter goes from 0 to 1, the row
    moves by the clipped action times [1/100]. *)
Example demo_step_ordinary :
  match step (W := demo) [Num 2; Num (-1 # 2)] (Some 0) demo_runtime with
  | (Ok (next_state, _, done, _), r') =>
      next_state
      = update_rule (Num (1 # 100)) [Num (3 # 10); Num (9 # 10)]
          [Num 2; Num (-1 # 2)] /\
      done = false /\ count (self r') = [1; 0] /\ np_random r' = 0%nat
  | _ => False
  end.
Proof. vm_compute. repeat split; reflexivity. Qed.

(** The step after it reaches [horizon = 2]: the row is drawn afresh. *)
Example demo_step_horizon :
  match step (W := demo) [Num 2; Num (-1 # 2)] (Some 0) demo_runtime with
  | (Ok _, r1) =>
      match step (W := demo) [Num 1; Num 1] (Some 0) r1 with
      | (Ok (next_state, _, done, _), r2) =>
          next_state = (demo_random_sample 0 2).1 /\
          done = false /\ count (self r2) = [2; 0] /\ np_random r2 = 2%nat
      | _ => False
      end
  | _ => False
  end.
Proof. vm_compute. repeat split; reflexivity. Qed.

(** An adapter constructed with [num_workers = 0], where the pool fails its
    assertion: [step] overwrites row 0 and then fails on [self.pool]. *)
Example demo_step_without_pool :
  match init (W := demo) demo_env demo_parameters tt demo_reward_generator 2
          (Num (1 # 100)) 2 1 0 4 0%nat with
  | Ok r =>
      match step (W := demo) [Num 1; Num 1] (Some 0) r with
      | (res, r') =>
          res = Raise (AttributeError "pool") /\
          inner_parameter_state (self r) !! 0%nat
          = Some [Num (1 # 2); Num (1 # 3)] /\
          inner_parameter_state (self r') !! 0%nat
          = Some (update_rule (Num (1 # 100)) [Num (1 # 2); Num (1 # 3)]
                    [Num 1; Num 1])
      end
  | Raise _ => False
  end.
Proof. vm_compute. repeat split; reflexivity. Qed.

Lemma step_keeps_unit_interval_witness :
  exists next_state reward done info r',
    step (W := demo) [Num 2; Num (-1 # 2)] (Some 0) demo_runtime
    = (Ok (next_state, reward, done, info), r') /\
    inner_parameter_state (self r') !! 0%nat = Some next_state /\
    Forall in_unit next_state.
Proof.
  apply (step_keeps_unit_interval (W := demo) demo_random_sample_length
           demo_random_sample_range demo_rollouts_preprocessable
           demo_runtime 0 [Num 2; Num (-1 # 2)]
           [Num (3 # 10); Num (9 # 10)] 0 0%nat [Num 2; Num 3]);
    (reflexivity || by repeat constructor).
Defined.

(** C1, as stated for every vector and every action, fails on NaN and on an
    infinite step length: [np.clip] passes NaN through, and so does the
    addition; [0 * inf] is NaN. In each of the three runs [step] returns
    and leaves a NaN in row 0.
    - An action with a NaN component.
    - A current vector with a NaN component, here set by
      [reset(0, init_state)].
    - An adapter constructed with an infinite step length, stepped with the
      zero action. *)
Lemma step_leaves_unit_interval :
  (exists reward info r',
     step (W := demo) [NaN; Num (1 # 2)] (Some 0) demo_runtime
     = (Ok ([NaN; Num (1810 # 2000)], reward, false, info), r') /\
     inner_parameter_state (self r') !! 0%nat
     = Some [NaN; Num (1810 # 2000)]) /\
  (exists r0 reward info r',
     reset (W := demo) (Some 0) (Some [NaN; Num (1 # 2)]) None demo_runtime
     = (Ok [NaN; Num (1 # 2)], r0) /\
     step (W := demo) [Num 0; Num 0] (Some 0) r0
     = (Ok ([NaN; Num (100 # 200)], reward, false, info), r') /\
     inner_parameter_state (self r') !! 0%nat
     = Some [NaN; Num (100 # 200)]) /\
  (exists r0 reward info r',
     init (W := demo) demo_env demo_parameters tt demo_reward_generator 2
       PInf 2 1 1 4 0%nat = Ok r0 /\
     step (W := demo) [Num 0; Num 0] (Some 0) r0
     = (Ok ([NaN; NaN], reward, false, info), r') /\
     inner_parameter_state (self r') !! 0%nat = Some [NaN; NaN]) /\
  (forall v, ~ Forall in_unit (NaN :: v)).
Proof.
  split; [| split; [| split]].
  - do 3 eexists. split; [vm_compute; reflexivity | reflexivity].
  - do 4 eexists. split; [vm_compute; reflexivity |].
    split; [vm_compute; reflexivity | reflexivity].
  - do 4 eexists. split; [vm_compute; reflexivity |].
    split; [vm_compute; reflexivity | reflexivity].
  - intros v Hv. apply Forall_cons_1 in Hv as [[[] _] _].
Qed.

Lemma step_next_state_witness :
  exists next_state reward done info r',
    step (W := demo) [Num 2; Num (-1 # 2)] (Some 0) demo_runtime
    = (Ok (next_state, reward, done, info), r') /\
    (0 < 0 + 1 /\ (exists m, 0 + 1 = m * 2) ->
     next_state = (demo_random_sample 0 2).1) /\
    ((forall m, 0 + 1 <> m * 2) ->
     next_state
     = update_rule (Num (1 # 100)) [Num (3 # 10); Num (9 # 10)]
         [Num 2; Num (-1 # 2)]).
Proof.
  apply (step_next_state (W := demo) demo_random_sample_length
           demo_rollouts_preprocessable
           demo_runtime 0 [Num 2; Num (-1 # 2)]
           [Num (3 # 10); Num (9 # 10)] 0 0%nat [Num 2; Num 3]);
    reflexivity.
Defined.

Lemma step_done_flag_witness :
  (forall act, length act = 2%nat ->
     exists next_state reward done info r',
       step (W := demo) act (Some 0) demo_runtime
       = (Ok (next_state, reward, done, info), r') /\
       (done = true <-> 4 - 1 <= 0)) /\
  (forall acts,
     Forall (fun act => length act = 2%nat) acts ->
     exists fresh r0 flags r',
       reset (W := demo) (Some 0) None None demo_runtime = (Ok fresh, r0) /\
       episode (Z.of_nat 0) acts r0 = (Ok flags, r') /\
       length flags = length acts /\
       forall n, (1 <= n <= length acts)%nat ->
         flags !! (n - 1)%nat = Some (bool_decide (4 <= Z.of_nat n))).
Proof.
  apply (step_done_flag (W := demo) demo_random_sample_length
           demo_rollouts_preprocessable
           demo_runtime 0 [Num (3 # 10); Num (9 # 10)] 0 0%nat [Num 2; Num 3]);
    reflexivity.
Defined.

Lemma index_scoped_frame_witness :
  0%nat <> 1%nat /\
  (forall act res r',
     step (W := demo) act (Some 0) demo_runtime = (res, r') ->
     particle 1 (self r') = particle 1 demo_adapter /\
     (forall out, res = Ok out -> horizon_count (self r') = 0 + 1)) /\
  (forall init_state domain_param res r',
     reset (W := demo) (Some 0) init_state domain_param demo_runtime
     = (res, r') ->
     particle 1 (self r') = particle 1 demo_adapter).
Proof.
  split; [lia |].
  apply (index_scoped_frame (W := demo) 0 1 demo_runtime). lia.
Defined.

Lemma init_without_pool_witness :
  @SamplerPool demo 0 = Raise AssertionError /\
  exists r,
    init (W := demo) demo_env demo_parameters tt demo_reward_generator 2
      (Num (1 # 100)) 2 1 0 4 0%nat
    = Ok r /\
    warnings r = [] /\
    pool (self r) = None /\
    (forall act i, raises (step act i r)) /\
    (forall states, raises (eval_states states r)).
Proof.
  split; [reflexivity |].
  apply (init_without_pool (W := demo)). reflexivity.
Defined.

Lemma train_optimizer_steps_witness :
  exists l rg',
    train (W := demo) (demo_rollout ∅) (demo_rollout ∅) 2
      demo_reward_generator
    = (Ok l, rg') /\
    optimizer_steps rg' = 1%nat.
Proof.
  apply (train_optimizer_steps (W := demo) (demo_rollout ∅) (demo_rollout ∅)
           2 demo_reward_generator).
  - apply Forall_singleton. unfold preprocessable. simpl. lia.
  - apply Forall_singleton. unfold preprocessable. simpl. lia.
  - lia.
Defined.

Lemma train_without_pairs_witness :
  exists rg',
    train (W := demo) (demo_rollout ∅) (demo_rollout ∅) 0
      demo_reward_generator
    = (Ok None, rg') /\
    optimizer_steps rg' = 0%nat /\
    rg_discriminator rg' = rg_discriminator demo_reward_generator /\
    logger rg' = Some [("discriminator_loss", None)].
Proof.
  apply (train_without_pairs (W := demo) (demo_rollout ∅) (demo_rollout ∅)
           0 demo_reward_generator).
  left. lia.
Defined.

Lemma array_to_dict_nominal_witness :
  exists arr d,
    nominal demo_adapter = Ok arr /\
    nominal_dict demo_adapter = Ok d /\
    array_to_dict demo_adapter arr = d.
Proof.
  apply (array_to_dict_nominal (W := demo) demo_adapter).
  exact demo_nominal_available.
Defined.

Lemma preprocess_rollout_spec_witness :
  preprocess_rollout (PyList [PyNum (Num 1)]) = Raise TypeErr /\
  exists feats,
    preprocess_rollout (PyStepSequence (demo_rollout ∅)) = Ok feats /\
    length feats = 2%nat /\
    forall t, (t < 2)%nat ->
      exists state_t action_t,
        observations (demo_rollout ∅) !! t = Some state_t /\
        actions (demo_rollout ∅) !! t = Some action_t /\
        feats !! t = Some (state_t ++ action_t).
Proof.
  destruct preprocess_rollout_spec as [Htype Hvalid]. split.
  - apply Htype. discriminate.
  - apply (Hvalid (demo_rollout ∅) 2%nat); simpl; lia.
Defined.

(** * Further properties of the adapter and the reward generator *)

Section Further.

Context `{W : Collaborators}.

Hypothesis random_sample_length :
  forall g n, length (random_sample g n).1 = n.
Hypothesis random_sample_range :
  forall g n, Forall in_half_open_unit (random_sample g n).1.
Hypothesis rollouts_preprocessable :
  forall p e pi ds, Forall preprocessable (eval_domain_params p e pi ds).1.
Hypothesis one_rollout_per_dictionary :
  forall p e pi ds, length (eval_domain_params p e pi ds).1 = length ds.

(** ** [reset] *)

Lemma draw_matrix_shape (rows n : nat) (r : Runtime) :
  exists m g,
    draw_matrix rows n r
    = (Ok m, Build_Runtime (self r) g (dispatched r) (warnings r)) /\
    length m = rows /\
    Forall (fun row => length row = n /\ Forall in_unit row) m.
Proof.
  revert r. induction rows as [| rows IH]; intros r.
  - exists [], (np_random r). destruct r. done.
  - destruct (IH (Build_Runtime (self r) (random_sample (np_random r) n).2
                    (dispatched r) (warnings r))) as (m & g & Hm & Hlen & Hrows).
    exists ((random_sample (np_random r) n).1 :: m), g. cbn [draw_matrix].
    rewrite (bind_run _ _ _ _ _ (draw_run r n)), (bind_run _ _ _ _ _ Hm).
    split; [reflexivity |]. split; [simpl; by rewrite Hlen |].
    apply Forall_cons. split; [| exact Hrows].
    split; [apply random_sample_length |].
    by apply in_unit_of_sample.
Qed.

(** X1. [reset()] without arguments returns a matrix with one row per
    particle, every row as wide as the list of parameters and within [0, 1];
    all counters are zero; no rollout is dispatched and the pool is not
    touched. *)
Theorem reset_all_fresh (r : Runtime) :
  exists m r',
    reset None None None r = (Ok m, r') /\
    inner_parameter_state (self r') = m /\
    length m = num_particles (self r) /\
    Forall (fun row => length row = length (parameters (self r)) /\
                       Forall in_unit row) m /\
    count (self r') = replicate (num_particles (self r)) 0 /\
    horizon_count (self r') = horizon_count (self r) /\
    same_configuration (self r) (self r') /\
    pool (self r') = pool (self r) /\
    dispatched r' = dispatched r.
Proof.
  unfold reset.
  rewrite (bind_run (assert_is_none None) _ _ _ tt eq_refl).
  rewrite (bind_run (modify _) _ _ _ tt eq_refl).
  set (r1 := on_self _ r).
  destruct (draw_matrix_shape (num_particles (self r1))
              (length (parameters (self r1))) r1) as (m & g & Hm & Hlen & Hrows).
  exists m. eexists.
  rewrite (bind_run (bind get _) _ r1
             (on_self (with_inner_parameter_state m)
                (Build_Runtime (self r1) g (dispatched r1) (warnings r1)))
             tt).
  - split; [reflexivity |]. simpl. repeat split; done.
  - rewrite (bind_run get _ r1 r1 r1 eq_refl).
    by rewrite (bind_run _ _ _ _ _ Hm).
Qed.

(** X2. [reset(i, init_state=v)] with a vector of the width of row [i] returns
    [v], stores it as row [i], sets counter [i] to zero and draws no random
    number. *)
Theorem reset_particle_to (r : Runtime) (i : nat) (v row : list float) (c : Z) :
  inner_parameter_state (self r) !! i = Some row ->
  count (self r) !! i = Some c ->
  length v = length row ->
  exists r',
    reset (Some (Z.of_nat i)) (Some v) None r = (Ok v, r') /\
    inner_parameter_state (self r')
    = <[i := v]> (inner_parameter_state (self r)) /\
    count (self r') = <[i := 0]> (count (self r)) /\
    horizon_count (self r') = horizon_count (self r) /\
    same_configuration (self r) (self r') /\
    pool (self r') = pool (self r) /\
    np_random r' = np_random r /\
    dispatched r' = dispatched r.
Proof.
  intros Hrow Hc Hlen. unfold reset.
  rewrite (bind_run (assert_is_none None) _ r r tt eq_refl).
  rewrite (bind_run _ _ _ _ _
             (set_count_run r i 0 (lookup_lt_Some _ _ _ Hc))).
  set (r1 := on_self _ r).
  rewrite (bind_run _ _ _ _ _ (set_row_run r1 i row v Hrow Hlen)).
  set (r2 := on_self _ r1).
  assert (inner_parameter_state (self r2) !! i = Some v) as Hv2.
  { simpl. apply list_lookup_insert_eq. by eapply lookup_lt_Some. }
  exists r2. split; [exact (get_row_run r2 i v Hv2) |].
  repeat split; reflexivity.
Qed.

(** X3. [reset(i, init_state=v)] with a vector whose width is neither that of
    row [i] nor one raises [ValueError]; counter [i] has been set to zero by
    then, the matrix is unchanged. *)
Theorem reset_particle_wrong_width (r : Runtime) (i : nat) (v row : list float)
    (c : Z) :
  inner_parameter_state (self r) !! i = Some row ->
  count (self r) !! i = Some c ->
  length v <> length row ->
  length v <> 1%nat ->
  reset (Some (Z.of_nat i)) (Some v) None r
  = (Raise ValueError,
     on_self (with_count (<[i := 0]> (count (self r)))) r).
Proof.
  intros Hrow Hc Hlen Hone. unfold reset.
  rewrite (bind_run (assert_is_none None) _ r r tt eq_refl).
  rewrite (bind_run _ _ _ _ _
             (set_count_run r i 0 (lookup_lt_Some _ _ _ Hc))).
  set (r1 := on_self _ r).
  unfold bind at 1. unfold set_row, bind, get, lift.
  rewrite np_index_nat by (by eapply lookup_lt_Some).
  simpl inner_parameter_state.
  rewrite (getitem_nat _ _ _ Hrow). unfold assign_row.
  rewrite decide_False by done.
  destruct v as [| x [| y v]]; simpl in *; done.
Qed.

(** ** Error behaviour of the index-scoped calls *)

Lemma np_index_out_of_range (n : nat) (i : Z) :
  ~ (- Z.of_nat n <= i < Z.of_nat n) -> np_index n i = Raise IndexError.
Proof. intros Hi. unfold np_index. rewrite !decide_False by lia. done. Qed.

Lemma getitem_out_of_range {A} (l : list A) (i : Z) :
  ~ (- Z.of_nat (length l) <= i < Z.of_nat (length l)) ->
  getitem l i = Raise IndexError.
Proof. intros Hi. unfold getitem. by rewrite np_index_out_of_range. Qed.

(** X4. With an index outside [-n, n), [n] the number of rows, [step] raises
    [IndexError] and changes nothing; with an index outside the range of the
    counters, so does [reset(i, ...)]. *)
Theorem index_out_of_range (r : Runtime) (i : Z) :
  (~ (- Z.of_nat (length (inner_parameter_state (self r))) <= i
      < Z.of_nat (length (inner_parameter_state (self r)))) ->
   forall act, step act (Some i) r = (Raise IndexError, r)) /\
  (~ (- Z.of_nat (length (count (self r))) <= i
      < Z.of_nat (length (count (self r)))) ->
   forall init_state, reset (Some i) init_state None r = (Raise IndexError, r)).
Proof.
  split.
  - intros Hi act. unfold step.
    rewrite (bind_run get _ r r r eq_refl).
    unfold bind at 1. unfold get_row, bind, get, lift.
    by rewrite getitem_out_of_range.
  - intros Hi init_state. unfold reset.
    rewrite (bind_run (assert_is_none None) _ r r tt eq_refl).
    unfold bind at 1. unfold set_count, bind, get, lift.
    by rewrite np_index_out_of_range.
Qed.

(** X5. [step] with an action whose width is neither that of row [i] nor one
    raises [ValueError] and changes nothing. *)
Theorem step_wrong_action_width (r : Runtime) (i : nat) (act v : list float) :
  inner_parameter_state (self r) !! i = Some v ->
  length act <> length v ->
  length act <> 1%nat ->
  step act (Some (Z.of_nat i)) r = (Raise ValueError, r).
Proof.
  intros Hv Hlen Hact. unfold step.
  rewrite (bind_run get _ r r r eq_refl).
  rewrite (bind_run _ _ _ _ _ (get_row_run _ _ _ Hv)).
  destruct (decide (length v = 1%nat)) as [Hone | Hone].
  - destruct v as [| x [| ? ?]]; try done.
    unfold bind at 1. unfold lift at 1, broadcast.
    rewrite decide_False by (rewrite length_map; simpl in *; congruence).
    unfold bind at 1. unfold set_row, bind, get, lift.
    rewrite np_index_nat by (by eapply lookup_lt_Some).
    rewrite (getitem_nat _ _ _ Hv). unfold assign_row.
    rewrite decide_False
      by (unfold np_clip; rewrite !length_map; simpl in *; congruence).
    destruct act as [| a [| b act]]; simpl in *; done.
  - unfold bind at 1. unfold lift, broadcast.
    rewrite decide_False by (rewrite length_map; congruence).
    destruct v as [| x [| y v]], act as [| a [| b act]]; simpl in *; done.
Qed.

(** ** What [step] sends to the pool *)

Lemma nominal_dict_of_nominal (a : SVPGAdapter) (nom : list float) :
  nominal a = Ok nom -> nominal_dict a = Ok (array_to_dict a nom).
Proof.
  intros Hnom.
  destruct (dict_comprehension_zip a (params a) ∅) as (arr & Harr & Hd).
  - intros k Hk. destruct (map_result_ok_inv _ _ _ Hnom k Hk) as [v Hv].
    unfold nominal_value in Hv.
    destruct (get_nominal_domain_param (wrapped_env a) !! k); [eauto | done].
  - unfold nominal in Hnom. rewrite Hnom in Harr. injection Harr as <-.
    exact Hd.
Qed.

(** The dictionary of physics parameters for a normalized vector:
    [array_to_dict((v + 0.5) * nominal())]. *)
Lemma step_run_full (r : Runtime) (i : nat) (act v : list float) (c : Z)
    (p : Pool) (nom : list float) :
  inner_parameter_state (self r) !! i = Some v ->
  count (self r) !! i = Some c ->
  pool (self r) = Some p ->
  nominal (self r) = Ok nom ->
  length v = length (parameters (self r)) ->
  length act = length v ->
  let a := self r in
  let moved := update_rule (svpg_max_step_length a) v act in
  let random_parameters :=
    list_times
      (array_to_dict a
         (zip_with fmul (map (fun x => (x + Num (1 # 2))%np) moved) nom))
      (num_trajs a) in
  let nominal_parameters := list_times (array_to_dict a nom) (num_trajs a) in
  let e1 := eval_domain_params p (wrapped_env a) (inner_policy a)
              random_parameters in
  let e2 := eval_domain_params e1.2 (wrapped_env a) (inner_policy a)
              nominal_parameters in
  let redraw := np_mod_is_zero (c + 1) (horizon a) in
  let final :=
    if redraw
    then (random_sample (np_random r) (length (parameters a))).1
    else moved in
  exists rewards r',
    step act (Some (Z.of_nat i)) r
    = (Ok (final, np_mean rewards, bool_decide (max_steps a - 1 <= c),
           {| rand := e1.1; ref := e2.1 |}), r') /\
    map_result (fun traj => get_reward (discriminator a) (PyStepSequence traj))
      e1.1 = Ok rewards /\
    inner_parameter_state (self r')
    = <[i := final]> (inner_parameter_state a) /\
    count (self r') = <[i := c + 1]> (count a) /\
    horizon_count (self r') = horizon_count a + 1 /\
    same_configuration a (self r') /\
    pool (self r') = Some e2.2 /\
    np_random r'
    = (if redraw
       then (random_sample (np_random r) (length (parameters a))).2
       else np_random r) /\
    dispatched r' = dispatched r ++ [random_parameters; nominal_parameters] /\
    warnings r' = warnings r.
Proof.
  intros Hv Hc Hp Hnom Hlv Hla a moved random_parameters nominal_parameters
    e1 e2 redraw final. subst a.
  pose proof (nominal_dict_of_nominal _ _ Hnom) as Hnd.
  assert (length nom = length v) as Hlnom.
  { unfold nominal in Hnom. rewrite (length_map_result _ _ _ Hnom).
    unfold params. by rewrite length_map. }
  unfold step.
  rewrite (bind_run _ _ r r r) by done.
  rewrite (bind_run _ _ _ _ _ (get_row_run _ _ _ Hv)).
  unfold lift at 1.
  rewrite broadcast_same_length by (by rewrite length_map).
  rewrite (bind_run _ _ r r _ eq_refl).
  fold (update_rule (svpg_max_step_length (self r)) v act).
  fold moved.
  assert (length moved = length v) as Hlm by (by apply length_update_rule).
  rewrite (bind_run _ _ _ _ _ (set_row_run r i v moved Hv Hlm)).
  set (r1 := on_self _ r).
  assert (inner_parameter_state (self r1) !! i = Some moved) as Hv1.
  { simpl. apply list_lookup_insert_eq. by eapply lookup_lt_Some. }
  rewrite (bind_run _ _ _ _ _ (get_row_run r1 i _ Hv1)).
  unfold lift at 1. rewrite Hnom, (bind_run _ _ r1 r1 _ eq_refl).
  unfold lift at 1.
  rewrite broadcast_same_length by (rewrite length_map; congruence).
  rewrite (bind_run _ _ r1 r1 _ eq_refl).
  unfold lift at 1. rewrite Hnd, (bind_run _ _ r1 r1 _ eq_refl).
  fold random_parameters. fold nominal_parameters.
  rewrite (bind_run _ _ _ _ _ (dispatch_run r1 p _ Hp)).
  change (eval_domain_params p (wrapped_env (self r1)) (inner_policy (self r1))
            random_parameters) with e1.
  set (r2 := Build_Runtime _ _ _ _).
  rewrite (bind_run _ _ _ _ _ (dispatch_run r2 _ _ eq_refl)).
  change (eval_domain_params e1.2 (wrapped_env (self r2))
            (inner_policy (self r2)) nominal_parameters) with e2.
  set (r3 := Build_Runtime _ _ _ _).
  destruct (rewards_ok rollouts_preprocessable (discriminator (self r)) p
              (wrapped_env (self r)) (inner_policy (self r))
              random_parameters)
    as [rewards Hrew].
  fold e1 in Hrew.
  unfold lift at 1. rewrite Hrew, (bind_run _ _ r3 r3 _ eq_refl).
  rewrite (bind_run _ _ _ _ _ (get_count_run r3 i c Hc)).
  rewrite (bind_run _ _ _ _ _
             (set_count_run r3 i (c + 1) (lookup_lt_Some _ _ _ Hc))).
  set (r4 := on_self _ r3).
  rewrite (bind_run (modify _) _ r4 _ _ eq_refl).
  set (r5 := on_self _ r4).
  assert (count (self r5) !! i = Some (c + 1)) as Hc5.
  { simpl. apply list_lookup_insert_eq. by eapply lookup_lt_Some. }
  rewrite (bind_run _ _ _ _ _ (get_count_run r5 i _ Hc5)).
  assert (inner_parameter_state (self r5) !! i = Some moved) as Hv5 by exact Hv1.
  exists rewards.
  subst final. fold redraw. destruct redraw eqn:Hz.
  - set (n := length (parameters (self r))).
    set (fresh := (random_sample (np_random r) n).1).
    assert (length fresh = length moved) as Hlf.
    { unfold fresh. rewrite random_sample_length. unfold n. congruence. }
    set (r6 := Build_Runtime (self r5) (random_sample (np_random r5) n).2
                 (dispatched r5) (warnings r5)).
    assert ((let* v0 := draw n in set_row (Z.of_nat i) v0)%py r5
            = (Ok tt,
               on_self (with_inner_parameter_state
                          (<[i := fresh]> (inner_parameter_state (self r6))))
                 r6)) as Hredraw.
    { rewrite (bind_run _ _ _ _ _ (draw_run r5 n)).
      exact (set_row_run r6 i moved fresh Hv5 Hlf). }
    rewrite (bind_run _ _ _ _ _ Hredraw).
    set (r7 := on_self _ r6).
    assert (inner_parameter_state (self r7) !! i = Some fresh) as Hv7.
    { simpl. apply list_lookup_insert_eq. rewrite length_insert.
      by eapply lookup_lt_Some. }
    rewrite (bind_run _ _ _ _ _ (get_row_run r7 i _ Hv7)).
    eexists. split; [reflexivity |]. simpl.
    rewrite list_insert_insert_eq, <- app_assoc.
    repeat split; eauto.
  - rewrite (bind_run (ret _) _ r5 _ _ eq_refl).
    rewrite (bind_run _ _ _ _ _ (get_row_run r5 i _ Hv5)).
    eexists. split; [reflexivity |]. simpl. rewrite <- app_assoc.
    repeat split; eauto.
Qed.

Lemma foldl_insert_lookup (kvs : list (string * float)) (d : gmap string float)
    (k : string) (x : float) :
  foldl (fun d ka => <[ka.1 := ka.2]> d) d kvs !! k = Some x ->
  (k, x) ∈ kvs \/ d !! k = Some x.
Proof.
  revert d. induction kvs as [| [k' x'] kvs IH]; intros d; simpl.
  - auto.
  - intros [Hin | Hd]%IH.
    + left. by right.
    + destruct (decide (k' = k)) as [-> | Hne].
      * rewrite lookup_insert_eq in Hd. injection Hd as ->. left. by left.
      * rewrite lookup_insert_ne in Hd by done. by right.
Qed.



(** X6. A [step] that goes through sends exactly two batches to the pool:
    first [num_trajs] copies of the randomized dictionary
    [array_to_dict((row + 0.5) * nominal())], where [row] is the vector
    just stored by the update rule, then [num_trajs] copies of
    [nominal_dict()]; [info] holds [num_trajs] randomized and [num_trajs]
    reference rollouts. *)
Theorem step_dispatches (r : Runtime) (i : nat) (act v : list float) (c : Z)
    (p : Pool) (nom : list float) :
  inner_parameter_state (self r) !! i = Some v ->
  count (self r) !! i = Some c ->
  pool (self r) = Some p ->
  nominal (self r) = Ok nom ->
  length v = length (parameters (self r)) ->
  length act = length v ->
  let row := update_rule (svpg_max_step_length (self r)) v act in
  let d_rand :=
    array_to_dict (self r)
      (zip_with fmul (map (fun x => (x + Num (1 # 2))%np) row) nom) in
  exists d_nom next_state reward done info r',
    step act (Some (Z.of_nat i)) r
    = (Ok (next_state, reward, done, info), r') /\
    nominal_dict (self r) = Ok d_nom /\
    dispatched r'
    = dispatched r ++ [list_times d_rand (num_trajs (self r));
                       list_times d_nom (num_trajs (self r))] /\
    length (rand info) = Z.to_nat (num_trajs (self r)) /\
    length (ref info) = Z.to_nat (num_trajs (self r)).
Proof.
  intros Hv Hc Hp Hnom Hlv Hla row d_rand.
  destruct (step_run_full r i act v c p nom Hv Hc Hp Hnom Hlv Hla)
    as (rewards & r' & Hrun & _ & _ & _ & _ & _ & _ & _ & Hdisp & _).
  do 6 eexists. split; [exact Hrun |].
  split; [by apply nominal_dict_of_nominal |].
  split; [exact Hdisp |]. simpl.
  rewrite !one_rollout_per_dictionary. unfold list_times.
  by rewrite !length_replicate.
Qed.


Lemma np_mod_is_zero_one (h : Z) :
  h <> 1 -> h <> -1 -> np_mod_is_zero 1 h = false.
Proof.
  intros H1 H2. destruct (np_mod_is_zero 1 h) eqn:Hz; [| done].
  apply np_mod_is_zero_true in Hz as [_ [m Hm]].
  symmetry in Hm. rewrite Z.mul_comm in Hm. apply Z.mul_eq_1 in Hm. lia.
Qed.

(** X8. [reset(i, init_state=v)] followed by [step(act, i)] returns the update
    rule applied to [v], with [done = (max_steps <= 1)] and counter one,
    unless [horizon] is [1] or [-1]. *)
Theorem reset_then_step (r : Runtime) (i : nat) (v act row : list float) (c : Z)
    (p : Pool) (nom : list float) :
  inner_parameter_state (self r) !! i = Some row ->
  count (self r) !! i = Some c ->
  pool (self r) = Some p ->
  nominal (self r) = Ok nom ->
  length row = length (parameters (self r)) ->
  length v = length row ->
  length act = length row ->
  horizon (self r) <> 1 ->
  horizon (self r) <> -1 ->
  exists r1 reward info r2,
    reset (Some (Z.of_nat i)) (Some v) None r = (Ok v, r1) /\
    step act (Some (Z.of_nat i)) r1
    = (Ok (update_rule (svpg_max_step_length (self r)) v act, reward,
           bool_decide (max_steps (self r) <= 1), info), r2) /\
    count (self r2) !! i = Some 1.
Proof.
  intros Hrow Hc Hp Hnom Hlrow Hlv Hla Hh1 Hh2.
  destruct (reset_particle_to r i v row c Hrow Hc Hlv)
    as (r1 & Hreset & Hips & Hcnt & _ & Hcfg & Hp1 & _).
  pose proof Hcfg as (_ & Hpar & _ & _ & _ & Hlen & _ & Hmax & Hhor).
  assert (Hv1 : inner_parameter_state (self r1) !! i = Some v).
  { rewrite Hips. apply list_lookup_insert_eq. by eapply lookup_lt_Some. }
  assert (Hc1 : count (self r1) !! i = Some 0).
  { rewrite Hcnt. apply list_lookup_insert_eq. by eapply lookup_lt_Some. }
  destruct (step_run_full r1 i act v 0 p nom Hv1 Hc1)
    as (rewards & r2 & Hrun & _ & _ & Hcnt2 & _).
  - congruence.
  - by rewrite (nominal_same_configuration _ _ Hcfg).
  - congruence.
  - congruence.
  - cbv zeta in Hrun. change (0 + 1) with 1 in Hrun.
    rewrite Hhor, np_mod_is_zero_one in Hrun by done.
    rewrite Hlen, Hmax in Hrun.
    assert (bool_decide (max_steps (self r) - 1 <= 0)
            = bool_decide (max_steps (self r) <= 1)) as Hb
      by (apply bool_decide_ext; lia).
    rewrite Hb in Hrun.
    exists r1. do 2 eexists. exists r2. split; [exact Hreset |]. split.
    + exact Hrun.
    + rewrite Hcnt2. apply list_lookup_insert_eq. by eapply lookup_lt_Some.
Qed.

(** ** [eval_states] *)

(** X9. [eval_states] never changes the particle matrix, the counters,
    [horizon_count], the configuration or the random source, however it ends.
    *)
Theorem eval_states_frame (states : list (list float)) (r r' : Runtime) res :
  eval_states states r = (res, r') ->
  inner_parameter_state (self r') = inner_parameter_state (self r) /\
  count (self r') = count (self r) /\
  horizon_count (self r') = horizon_count (self r) /\
  same_configuration (self r) (self r') /\
  np_random r' = np_random r.
Proof.
  unfold eval_states, bind, get, lift.
  destruct (map_result _ states) as [sstates |]; [| by intros [= _ <-]].
  unfold dispatch at 1.
  destruct (pool (self r)) as [p |]; [| by intros [= _ <-]].
  destruct (eval_domain_params p _ _ _) as [rand p1].
  destruct (nominal_dict (self r)) as [nd |]; [| by intros [= _ <-]].
  unfold dispatch. simpl.
  destruct (eval_domain_params p1 _ _ _) as [ref p2].
  destruct (map_result _ rand); by intros [= _ <-].
Qed.

Lemma map_result_total {A B} (f : A -> Result B) (g : A -> B) (xs : list A) :
  Forall (fun x => f x = Ok (g x)) xs -> map_result f xs = Ok (map g xs).
Proof.
  induction 1 as [| x xs Hx _ IH]; simpl; [done |]. by rewrite Hx, IH.
Qed.

Lemma length_concat_replicate {A B} (g : A -> B) (n : nat) (xs : list A) :
  length (concat (map (fun x => replicate n (g x)) xs)) = (n * length xs)%nat.
Proof.
  induction xs as [| x xs IH]; simpl; [lia |].
  rewrite length_app, length_replicate, IH. lia.
Qed.

(** X10. [eval_states(states)] on vectors of the width of the parameter list
    returns one reward per state and [num_trajs] randomized and reference
    rollouts per state; it sends two batches to the pool, the randomized
    dictionaries state by state and then the nominal ones. *)
Theorem eval_states_run (states : list (list float)) (r : Runtime) (p : Pool)
    (nom : list float) :
  pool (self r) = Some p ->
  nominal (self r) = Ok nom ->
  Forall (fun state => length state = length (parameters (self r))) states ->
  exists rewards rand ref d_nom r',
    eval_states states r = (Ok (rewards, rand, ref), r') /\
    length rewards = length states /\
    length rand = (Z.to_nat (num_trajs (self r)) * length states)%nat /\
    length ref = (Z.to_nat (num_trajs (self r)) * length states)%nat /\
    nominal_dict (self r) = Ok d_nom /\
    dispatched r'
    = dispatched r
      ++ [concat
            (map (fun state =>
                    list_times
                      (array_to_dict (self r)
                         (zip_with fmul
                            (map (fun x => (x + Num (1 # 2))%np) state) nom))
                      (num_trajs (self r))) states);
          list_times d_nom (num_trajs (self r) * Z.of_nat (length states))].
Proof.
  intros Hp Hnom Hstates.
  pose proof (nominal_dict_of_nominal _ _ Hnom) as Hnd.
  assert (length nom = length (parameters (self r))) as Hlnom.
  { unfold nominal in Hnom. rewrite (length_map_result _ _ _ Hnom).
    unfold params. by rewrite length_map. }
  unfold eval_states.
  rewrite (bind_run get _ r r r eq_refl).
  unfold lift at 1.
  erewrite map_result_total; cycle 1.
  { eapply Forall_impl; [exact Hstates |]. intros state Hl. simpl.
    rewrite Hnom, broadcast_same_length by (rewrite length_map; congruence).
    reflexivity. }
  rewrite (bind_run _ _ r r _ eq_refl).
  rewrite (bind_run _ _ _ _ _ (dispatch_run r p _ Hp)).
  set (e1 := eval_domain_params p _ _ _).
  set (r1 := Build_Runtime _ _ _ _).
  unfold lift at 1. rewrite Hnd, (bind_run _ _ r1 r1 _ eq_refl).
  rewrite (bind_run _ _ _ _ _ (dispatch_run r1 _ _ eq_refl)).
  set (e2 := eval_domain_params e1.2 _ _ _).
  set (r2 := Build_Runtime _ _ _ _).
  destruct (rewards_ok rollouts_preprocessable (discriminator (self r)) p
              (wrapped_env (self r)) (inner_policy (self r))
              (concat
                 (map (fun state =>
                         list_times
                           (array_to_dict (self r)
                              (zip_with fmul
                                 (map (fun x => (x + Num (1 # 2))%np) state)
                                 nom))
                           (num_trajs (self r))) states)))
    as [rewards Hrew].
  fold e1 in Hrew.
  unfold lift at 1. rewrite Hrew, (bind_run _ _ r2 r2 _ eq_refl).
  do 5 eexists. split; [reflexivity |].
  split; [by rewrite length_map, length_seq |].
  split.
  { unfold e1. rewrite one_rollout_per_dictionary. unfold list_times.
    apply length_concat_replicate. }
  split.
  { unfold e2. rewrite one_rollout_per_dictionary. unfold list_times.
    rewrite length_replicate.
    destruct (Z.le_gt_cases 0 (num_trajs (self r))); [| nia].
    rewrite Z2Nat.inj_mul, Nat2Z.id by lia. done. }
  split; [reflexivity |]. simpl. by rewrite <- app_assoc.
Qed.

(** ** The constructor, with a pool *)

Lemma nominal_available (a : SVPGAdapter) :
  (forall k, k ∈ params a ->
     is_Some (get_nominal_domain_param (wrapped_env a) !! k)) ->
  exists nom, nominal a = Ok nom.
Proof.
  intros Hks.
  destruct (dict_comprehension_zip a (params a) ∅ Hks) as (arr & Harr & _).
  by exists arr.
Qed.

(** X11. When the pool can be built and every randomized parameter has a
    nominal value, the constructor returns an adapter with [num_particles]
    rows in [0, 1], zero counters and no rollout dispatched, on which [step]
    returns for every particle and every action of the right width. *)
Theorem init_ready (env : Env) (domain_params : list DomainParam)
    (policy : Policy) (rg : RewardGenerator) (particles : nat)
    (step_length : float) (svpg_horizon : Z) (num_rollouts_per_config : Z)
    (num_workers : Z) (steps : Z) (g : Rng) (p : Pool) :
  SamplerPool num_workers = Ok p ->
  (forall k, k ∈ map name domain_params ->
     is_Some (get_nominal_domain_param env !! k)) ->
  exists r,
    init env domain_params policy rg particles step_length svpg_horizon
      num_rollouts_per_config num_workers steps g
    = Ok r /\
    length (inner_parameter_state (self r)) = particles /\
    Forall (fun row => length row = length domain_params /\
                       Forall in_unit row)
      (inner_parameter_state (self r)) /\
    count (self r) = replicate particles 0 /\
    horizon_count (self r) = 0 /\
    dispatched r = [] /\
    forall (i : nat) (act : list float),
      (i < particles)%nat ->
      length act = length domain_params ->
      exists out r', step act (Some (Z.of_nat i)) r = (Ok out, r').
Proof.
  intros Hpool Hnominal. unfold init, try_sampler_pool. rewrite Hpool.
  match goal with
  | |- context [reset None None None ?r0] =>
      destruct (reset_all_fresh r0)
        as (m & r & -> & Hips & Hlen & Hrows & Hcnt & Hhc & Hcfg & Hp & Hdisp)
  end.
  simpl in *. pose proof Hcfg as (Henv & Hpar & _).
  exists r. split; [reflexivity |]. rewrite Hips.
  split; [exact Hlen |]. split; [exact Hrows |]. split; [exact Hcnt |].
  split; [exact Hhc |]. split; [exact Hdisp |].
  intros i act Hi Hact.
  destruct (lookup_lt_is_Some_2 m i) as [v Hv]; [lia |].
  destruct (Forall_lookup_1 _ _ _ _ Hrows Hv) as [Hlv _].
  destruct (nominal_available (self r)) as [nom Hnom].
  { unfold params. rewrite Hpar, Henv. exact Hnominal. }
  destruct (step_run random_sample_length rollouts_preprocessable
              r i act v 0 p nom) as (reward & info & r' & Hrun & _).
  - by rewrite Hips.
  - rewrite Hcnt. by apply lookup_replicate_2.
  - by rewrite Hp.
  - exact Hnom.
  - by rewrite Hpar.
  - congruence.
  - eauto.
Qed.

(** ** [train] with at least one pair *)

Lemma zip_loop_loss (g1 g2 : list StepSequence) (l : option float)
    (rg : RewardGenerator) :
  Forall preprocessable g1 ->
  Forall preprocessable g2 ->
  exists loc rg',
    zip_loop g1 g2 l rg = (Ok loc, rg') /\
    logger rg' = logger rg /\
    (reference_batch_generator loc = [] \/ random_batch_generator loc = []) /\
    (is_Some l \/ (g1 <> [] /\ g2 <> []) -> is_Some (loss loc)).
Proof.
  intros H1. revert g2 l rg.
  induction H1 as [| ro1 g1 Hro1 _ IH]; intros g2 l rg H2.
  - do 2 eexists. simpl. unfold ret. split; [reflexivity |]. simpl.
    split; [done |]. split; [auto |]. intros [? | [? _]]; done.
  - destruct H2 as [| ro2 g2 Hro2 H2].
    + do 2 eexists. simpl. unfold ret. split; [reflexivity |]. simpl.
      split; [done |]. split; [auto |]. intros [? | [_ ?]]; done.
    + destruct (preprocess_rollout_ok ro1 Hro1) as [f1 Hf1].
      destruct (preprocess_rollout_ok ro2 Hro2) as [f2 Hf2].
      cbn [zip_loop]. unfold bind, lift, get, modify. rewrite Hf1, Hf2.
      match goal with
      | |- context [zip_loop g1 g2 ?l' ?rg'] =>
          destruct (IH g2 l' rg' H2) as (loc & rg'' & Hrun & Hlog & Hex & Hl)
      end.
      exists loc, rg''. split; [exact Hrun |]. split; [by rewrite Hlog |].
      split; [exact Hex |]. intros _. apply Hl. left. eauto.
Qed.

(** X12. With at least one epoch and at least one sub-rollout in each
    population, [train] returns a computed loss (not [None]) and an attached
    logger receives that same value. *)
Theorem train_returns_computed_loss (reference_trajectory
    randomized_trajectory : StepSequence) (num_epoch : Z)
    (rg : RewardGenerator) :
  Forall preprocessable (iterate_rollouts reference_trajectory) ->
  Forall preprocessable (iterate_rollouts randomized_trajectory) ->
  iterate_rollouts reference_trajectory <> [] ->
  iterate_rollouts randomized_trajectory <> [] ->
  1 <= num_epoch ->
  exists l rg',
    train reference_trajectory randomized_trajectory num_epoch rg
    = (Ok (Some l), rg') /\
    logger rg'
    = (fun entries => entries ++ [("discriminator_loss", Some l)])
        <$> logger rg.
Proof.
  intros Href Hrand Hne1 Hne2 Hn.
  destruct (Z.to_nat num_epoch) as [| n] eqn:En; [lia |].
  destruct (zip_loop_loss _ _ None rg Href Hrand)
    as (loc1 & rg1 & Hrun1 & Hlog & Hex & Hl).
  destruct Hl as [l Hl]; [by right |].
  destruct (epoch_loop_exhausted n loc1 rg1 Hex) as (loc & Hrun & Hloss).
  exists l. eexists. split.
  - erewrite train_unfold; cycle 1.
    { rewrite En. simpl. unfold bind. rewrite Hrun1. exact Hrun. }
    by rewrite Hloss, Hl.
  - destruct (logger rg1) eqn:Hlog1; simpl; by rewrite <- Hlog, Hlog1.
Qed.

(** ** [preprocess_rollout] on short action sequences *)

(** X13. On a trajectory [preprocess_rollout] returns one row per observation
    but the last when there are at least that many actions, and raises
    [RuntimeError] (from [narrow]) when there are fewer. *)
Theorem preprocess_rollout_returns_iff (ro : StepSequence) :
  (preprocessable ro ->
   exists feats,
     preprocess_rollout (PyStepSequence ro) = Ok feats /\
     length feats = (length (observations ro) - 1)%nat) /\
  (~ preprocessable ro ->
   preprocess_rollout (PyStepSequence ro) = Raise RuntimeError).
Proof.
  unfold preprocessable, preprocess_rollout, narrow0. rewrite length_tail.
  split; intros Hro.
  - rewrite decide_True by done. eexists. split; [reflexivity |].
    unfold cat1. rewrite length_zip_with, removelast_take, !length_take. lia.
  - by rewrite decide_False.
Qed.

(** ** [array_to_dict] and a missing nominal value *)

Lemma foldl_insert_zip (ks : list string) (vs : list float)
    (d : gmap string float)
    (j : nat) (k : string) (x : float) :
  NoDup ks -> ks !! j = Some k -> vs !! j = Some x ->
  foldl (fun d ka => <[ka.1 := ka.2]> d) d (zip ks vs) !! k = Some x.
Proof.
  intros Hnd. revert vs d j.
  induction Hnd as [| k0 ks Hk0 Hnd IH]; intros vs d j Hk Hx; [done |].
  destruct vs as [| v0 vs]; [done |]. destruct j as [| j]; simpl in *.
  - injection Hk as ->. injection Hx as ->.
    destruct (foldl (fun d ka => <[ka.1 := ka.2]> d) (<[k := x]> d)
                (zip ks vs) !! k) as [y |] eqn:Hy.
    + apply foldl_insert_lookup in Hy as [Hin | Hy].
      * apply elem_of_zip_l in Hin. done.
      * by rewrite lookup_insert_eq in Hy.
    + assert (forall kvs (d' : gmap string float),
                is_Some (d' !! k) ->
                is_Some (foldl (fun d ka => <[ka.1 := ka.2]> d) d' kvs !! k))
        as Hkeep.
      { induction kvs as [| [k' x'] kvs IHk]; intros d' Hd'; [done |].
        simpl. apply IHk. rewrite lookup_insert_is_Some. 
        destruct (decide (k' = k)); auto. }
      destruct (Hkeep (zip ks vs) (<[k := x]> d)) as [y Hy'].
      { rewrite lookup_insert_eq. eauto. }
      congruence.
  - by eapply IH.
Qed.

(** X14. With pairwise distinct parameter names, [array_to_dict(arr)] maps the
    [j]-th name to [arr[j]] and has no entry for a name beyond the length of
    [arr]. *)
Theorem array_to_dict_lookup (a : SVPGAdapter) (arr : list float) :
  NoDup (params a) ->
  (forall j k x,
     params a !! j = Some k -> arr !! j = Some x ->
     array_to_dict a arr !! k = Some x) /\
  (forall j k,
     params a !! j = Some k -> (length arr <= j)%nat ->
     array_to_dict a arr !! k = None).
Proof.
  intros Hnd. split.
  - intros j k x Hk Hx. by eapply foldl_insert_zip.
  - intros j k Hk Hj.
    destruct (array_to_dict a arr !! k) as [x |] eqn:Hx; [| done].
    unfold array_to_dict in Hx.
    apply foldl_insert_lookup in Hx as [Hin | Hx];
      [| by rewrite lookup_empty in Hx].
    apply list_elem_of_lookup in Hin as [j' Hj'].
    apply lookup_zip_with_Some in Hj' as (k' & x' & [= -> ->] & Hk' & Hx').
    pose proof (NoDup_lookup _ _ _ _ Hnd Hk Hk') as ->.
    apply lookup_lt_Some in Hx'. lia.
Qed.

Lemma map_result_first_error {A B} (f : A -> Result B) (xs1 xs2 : list A)
    (x : A) (e : PyExc) :
  Forall (fun x' => exists y, f x' = Ok y) xs1 ->
  f x = Raise e ->
  map_result f (xs1 ++ x :: xs2) = Raise e.
Proof.
  induction 1 as [| x' xs1 [y Hy] _ IH]; intros Hx; simpl.
  - by rewrite Hx.
  - by rewrite Hy, IH.
Qed.

Lemma dict_comprehension_first_error (a : SVPGAdapter) (ks1 ks2 : list string)
    (k : string) (d : gmap string float) :
  Forall (fun k' => is_Some (get_nominal_domain_param (wrapped_env a) !! k'))
    ks1 ->
  get_nominal_domain_param (wrapped_env a) !! k = None ->
  dict_comprehension a (ks1 ++ k :: ks2) d = Raise (KeyError k).
Proof.
  intros H1. revert d. induction H1 as [| k' ks1 [v Hv] _ IH]; intros d Hk.
  - simpl. unfold nominal_value. by rewrite Hk.
  - simpl. unfold nominal_value at 1. rewrite Hv. by apply IH.
Qed.

(** X15. When a randomized parameter has no nominal value, [nominal()] and
    [nominal_dict()] raise [KeyError] for the first such name, and so does
    [step], after it has stored the moved vector in row [i]. *)
Theorem missing_nominal_value (a : SVPGAdapter) (ks1 ks2 : list string)
    (k : string) :
  params a = ks1 ++ k :: ks2 ->
  Forall (fun k' => is_Some (get_nominal_domain_param (wrapped_env a) !! k'))
    ks1 ->
  get_nominal_domain_param (wrapped_env a) !! k = None ->
  nominal a = Raise (KeyError k) /\
  nominal_dict a = Raise (KeyError k) /\
  forall (r : Runtime) (i : nat) (act v : list float),
    self r = a ->
    inner_parameter_state a !! i = Some v ->
    length act = length v ->
    step act (Some (Z.of_nat i)) r
    = (Raise (KeyError k),
       on_self
         (with_inner_parameter_state
            (<[i := update_rule (svpg_max_step_length a) v act]>
               (inner_parameter_state a))) r).
Proof.
  intros Hks H1 Hk.
  assert (nominal a = Raise (KeyError k)) as Hnom.
  { unfold nominal. rewrite Hks. apply map_result_first_error.
    - eapply Forall_impl; [exact H1 |]. intros k' [v Hv].
      exists v. unfold nominal_value. by rewrite Hv.
    - unfold nominal_value. by rewrite Hk. }
  split; [exact Hnom |]. split.
  - unfold nominal_dict. rewrite Hks.
    by apply dict_comprehension_first_error.
  - intros r i act v <- Hv Hla. unfold step.
    rewrite (bind_run _ _ r r r) by done.
    rewrite (bind_run _ _ _ _ _ (get_row_run _ _ _ Hv)).
    unfold lift at 1.
    rewrite broadcast_same_length by (by rewrite length_map).
    rewrite (bind_run _ _ r r _ eq_refl).
    fold (update_rule (svpg_max_step_length (self r)) v act).
    set (moved := update_rule (svpg_max_step_length (self r)) v act).
    assert (length moved = length v) as Hlm by (by apply length_update_rule).
    rewrite (bind_run _ _ _ _ _ (set_row_run r i v moved Hv Hlm)).
    set (r1 := on_self _ r).
    assert (inner_parameter_state (self r1) !! i = Some moved) as Hv1.
    { simpl. apply list_lookup_insert_eq. by eapply lookup_lt_Some. }
    rewrite (bind_run _ _ _ _ _ (get_row_run r1 i _ Hv1)).
    unfold bind at 1. unfold lift at 1. by rewrite Hnom.
Qed.

(** ** What the calls never change *)

Ltac keeps_with special :=
  repeat first
    [ special | apply keeps_get | apply keeps_lift | apply keeps_ret | apply keeps_raise
    | apply keeps_get_row | apply keeps_get_count | apply keeps_draw
    | apply keeps_assert_is_none
    | apply keeps_dispatch; reflexivity
    | apply keeps_modify; intros; reflexivity
    | match goal with
      | |- keeps _ (if ?b then _ else _) => destruct b
      | |- keeps _ (match ?x with Some _ => _ | None => _ end) => destruct x
      end
    | apply keeps_bind; [| intros ?] ].

Ltac keeps_auto := keeps_with fail.

Lemma keeps_draw_matrix {X} (f : SVPGAdapter -> X) rows n :
  keeps f (draw_matrix rows n).
Proof. induction rows; simpl; keeps_auto. exact IHrows. Qed.

Lemma getitem_lookup {A} (l : list A) (k : Z) (n : nat) (x : A) :
  np_index (length l) k = Ok n -> getitem l k = Ok x -> l !! n = Some x.
Proof.
  unfold getitem. intros ->. destruct (l !! n); [| done]. by intros [= ->].
Qed.

Lemma assign_row_length {A} (row val v : list A) :
  assign_row row val = Ok v -> length v = length row.
Proof.
  unfold assign_row. case_decide; [by intros [= <-] |].
  destruct val as [| x [| ? ?]]; try done.
  intros [= <-]. apply length_replicate.
Qed.

Lemma keeps_shape_set_row k val :
  keeps (fun a => (length <$> inner_parameter_state a, length (count a)))
    (set_row k val).
Proof.
  intros r. unfold set_row, bind, get, lift, modify.
  destruct (np_index _ _) as [n |] eqn:Hn; [| done].
  destruct (getitem _ _) as [row |] eqn:Hrow; [| done].
  destruct (assign_row _ _) as [v |] eqn:Hv; [| done]. simpl.
  rewrite list_fmap_insert, (assign_row_length _ _ _ Hv). f_equal.
  apply list_insert_id. rewrite list_lookup_fmap.
  by rewrite (getitem_lookup _ _ _ _ Hn Hrow).
Qed.

Lemma keeps_shape_set_count k c :
  keeps (fun a => (length <$> inner_parameter_state a, length (count a)))
    (set_count k c).
Proof.
  intros r. unfold set_count, bind, get, lift, modify.
  destruct (np_index _ _) as [n |]; [| done]. simpl.
  by rewrite length_insert.
Qed.

(** X16. [step(act, i)] and [reset(i, ...)] keep the number of rows, the width
    of every row and the number of counters, however they end. *)
Theorem shape_is_kept (i : Z) (r r' : Runtime) :
  (forall act res,
     step act (Some i) r = (res, r') ->
     length <$> inner_parameter_state (self r')
     = length <$> inner_parameter_state (self r) /\
     length (count (self r')) = length (count (self r))) /\
  (forall init_state domain_param res,
     reset (Some i) init_state domain_param r = (res, r') ->
     length <$> inner_parameter_state (self r')
     = length <$> inner_parameter_state (self r) /\
     length (count (self r')) = length (count (self r))).
Proof.
  split.
  - intros act res Hrun.
    assert (keeps (fun a => (length <$> inner_parameter_state a,
                             length (count a))) (step act (Some i))) as Hkeep.
    { unfold step.
      keeps_with ltac:(first [ apply keeps_shape_set_row
                             | apply keeps_shape_set_count ]). }
    specialize (Hkeep r). rewrite Hrun in Hkeep. by injection Hkeep.
  - intros init_state domain_param res Hrun.
    assert (keeps (fun a => (length <$> inner_parameter_state a,
                             length (count a)))
              (reset (Some i) init_state domain_param)) as Hkeep.
    { unfold reset.
      keeps_with ltac:(first [ apply keeps_shape_set_row
                             | apply keeps_shape_set_count ]). }
    specialize (Hkeep r). rewrite Hrun in Hkeep. by injection Hkeep.
Qed.

(** X17. [step] and [reset] never change the wrapped environment, the
    parameters, the policy, [num_particles], [num_trajs], the step length, the
    discriminator, [max_steps] or [horizon]. *)
Theorem configuration_is_kept (r r' : Runtime) :
  (forall act i res,
     step act i r = (res, r') -> same_configuration (self r) (self r')) /\
  (forall i init_state domain_param res,
     reset i init_state domain_param r = (res, r') ->
     same_configuration (self r) (self r')).
Proof.
  split.
  - intros act i res Hrun.
    assert (keeps (fun a => (wrapped_env a, parameters a, inner_policy a,
                             num_particles a, num_trajs a,
                             svpg_max_step_length a, discriminator a,
                             max_steps a, horizon a)) (step act i)) as Hkeep.
    { destruct i; unfold step, set_row, set_count; keeps_auto. }
    specialize (Hkeep r). rewrite Hrun in Hkeep. simpl in Hkeep.
    injection Hkeep as ? ? ? ? ? ? ? ? ?. by repeat split.
  - intros i init_state domain_param res Hrun.
    assert (keeps (fun a => (wrapped_env a, parameters a, inner_policy a,
                             num_particles a, num_trajs a,
                             svpg_max_step_length a, discriminator a,
                             max_steps a, horizon a))
              (reset i init_state domain_param)) as Hkeep.
    { destruct i; unfold reset, set_row, set_count; keeps_auto;
        apply keeps_draw_matrix. }
    specialize (Hkeep r). rewrite Hrun in Hkeep. simpl in Hkeep.
    injection Hkeep as ? ? ? ? ? ? ? ? ?. by repeat split.
Qed.

End Further.

(** * Properties of the ADR algorithm object *)

Section AlgorithmProperties.

Context `{W : Collaborators}.

Hypothesis random_sample_length :
  forall g n, length (random_sample g n).1 = n.
Hypothesis rollouts_preprocessable :
  forall p e pi ds, Forall preprocessable (eval_domain_params p e pi ds).1.
Hypothesis one_rollout_per_dictionary :
  forall p e pi ds, length (eval_domain_params p e pi ds).1 = length ds.

(** ** [compute_params] *)

Lemma dict_keys_NoDup (ks seen : list string) :
  NoDup ks -> (forall k, k ∈ ks -> k ∉ seen) -> dict_keys ks seen = ks.
Proof.
  intros Hnd. revert seen.
  induction Hnd as [| k ks Hk Hnd IH]; intros seen Hseen; [done |].
  simpl. rewrite decide_False by (apply Hseen; by left).
  f_equal. apply IH. intros k' Hk' [-> | Hin]%elem_of_cons; [done |].
  eapply Hseen; [by right | done].
Qed.

Lemma scaled_comprehension_zip (nominal : gmap string float)
    (sim_instance nom : list float) (rest : list string) :
  forall (n : nat) (d : gmap string float),
    (forall j k,
       rest !! j = Some k ->
       exists x y,
         sim_instance !! (n + j)%nat = Some x /\
         nom !! (n + j)%nat = Some y /\
         nominal !! k = Some y) ->
    scaled_comprehension nominal sim_instance (enumerate_from n rest) d
    = Ok (foldl (fun d ka => <[ka.1 := ka.2]> d) d
            (zip rest
               (zip_with fmul
                  (map (fun x => (x + Num (1 # 2))%np) (drop n sim_instance))
                  (drop n nom)))).
Proof.
  induction rest as [| k rest IH]; intros n d Hrest; [done |].
  destruct (Hrest 0%nat k eq_refl) as (x & y & Hx & Hy & Hk).
  rewrite Nat.add_0_r in Hx, Hy.
  cbn [enumerate_from scaled_comprehension].
  rewrite (getitem_nat _ _ _ Hx), Hk.
  rewrite (drop_S _ _ _ Hx), (drop_S _ _ _ Hy). cbn.
  apply IH. intros j k' Hk'. destruct (Hrest (S j) k' Hk') as (x' & y' & H').
  exists x', y'. by replace (S n + j)%nat with (n + S j)%nat by lia.
Qed.

(** X18. With pairwise distinct parameter names and instances of the width of
    the parameter list, [compute_params(sim_instances, t)] returns for every
    instance of time step [t] the dictionary that the adapter builds for that
    vector, [array_to_dict((x + 0.5) * nominal())]. *)
Theorem compute_params_agrees (a : SVPGAdapter)
    (sim_instances : list (list (list float))) (t : Z)
    (instances : list (list float)) (nom : list float) :
  NoDup (params a) ->
  nominal a = Ok nom ->
  getitem sim_instances t = Ok instances ->
  instances <> [] ->
  Forall (fun sim_instance => length sim_instance = length (params a))
    instances ->
  compute_params a sim_instances t
  = Ok (map (fun sim_instance =>
               array_to_dict a
                 (zip_with fmul
                    (map (fun x => (x + Num (1 # 2))%np) sim_instance) nom))
          instances).
Proof.
  intros Hnd Hnom Ht Hne Hwidth. unfold compute_params.
  rewrite (nominal_dict_of_nominal a nom Hnom), Ht.
  rewrite dict_keys_NoDup by (done || (intros ? _; apply not_elem_of_nil)).
  destruct instances as [| first rest]; [done |].
  pose proof (getitem_nat (first :: rest) 0 first eq_refl) as Hfirst.
  change (Z.of_nat 0) with 0 in Hfirst. rewrite Hfirst.
  rewrite decide_True by (symmetry; by apply Forall_cons in Hwidth as [? _]).
  assert (length nom = length (params a)) as Hlnom.
  { unfold nominal in Hnom. by rewrite (length_map_result _ _ _ Hnom). }
  apply map_result_total.
  eapply Forall_impl; [exact Hwidth |]. intros inst Hl. simpl in *.
  rewrite (scaled_comprehension_zip _ inst nom); [done |].
  intros j k Hk. simpl.
  destruct (lookup_lt_is_Some_2 inst j) as [x Hx];
    [apply lookup_lt_Some in Hk; lia |].
  destruct (lookup_lt_is_Some_2 nom j) as [y Hy];
    [apply lookup_lt_Some in Hk; lia |].
  exists x, y. split; [done |]. split; [done |].
  by apply (proj1 (array_to_dict_lookup a nom Hnd) j k y).
Qed.

Section ParticleProperties.

Context {P : Type} (expl_strat : P -> list float -> list float * P).

Hypothesis action_width : forall p s, length (expl_strat p s).1 = length s.

Lemma particle_loop_run (i : nat) (nom : list float) (fuel : nat) :
  forall (r : Runtime) (p : P) (v : list float) (c : Z) (pl : Pool)
         (acc : ParticleRollout),
    inner_parameter_state (self r) !! i = Some v ->
    count (self r) !! i = Some c ->
    pool (self r) = Some pl ->
    nominal (self r) = Ok nom ->
    length v = length (parameters (self r)) ->
    let n := Z.to_nat (Z.max 1 (max_steps (self r) - c)) in
    (n <= fuel)%nat ->
    exists acc' p' r',
      particle_loop expl_strat fuel (Z.of_nat i) p v acc r
      = (Ok (Some (acc', p')), r') /\
      length (states acc') = (length (states acc) + n)%nat /\
      length (pr_actions acc') = (length (pr_actions acc) + n)%nat /\
      length (pr_rewards acc') = (length (pr_rewards acc) + n)%nat /\
      length (infos acc') = (length (infos acc) + n)%nat /\
      length (rand_trajs_now acc')
      = (length (rand_trajs_now acc)
         + n * Z.to_nat (num_trajs (self r)))%nat /\
      length (rand_trajs acc')
      = (length (rand_trajs acc) + n * Z.to_nat (num_trajs (self r)))%nat /\
      length (ref_trajs acc')
      = (length (ref_trajs acc) + n * Z.to_nat (num_trajs (self r)))%nat /\
      count (self r') !! i = Some (c + Z.of_nat n).
Proof.
  induction fuel as [| fuel IH];
    intros r p v c pl acc Hv Hc Hp Hnom Hlv n Hfuel; [lia |].
  cbn [particle_loop]. destruct (expl_strat p v) as [action p'] eqn:Hact.
  assert (length action = length v) as Hla.
  { pose proof (action_width p v) as Hw. by rewrite Hact in Hw. }
  destruct (step_run_full random_sample_length rollouts_preprocessable
              r i action v c pl nom Hv Hc Hp Hnom Hlv Hla)
    as (rs & r1 & Hrun & _ & Hips & Hcnt & _ & Hcfg & Hp1 & _).
  cbv zeta in Hrun.
  rewrite (bind_run _ _ _ _ _ Hrun).
  pose proof Hcfg as (_ & Hpar & _ & _ & Htraj & _ & _ & Hmax & _).
  assert (Hc1 : count (self r1) !! i = Some (c + 1)).
  { rewrite Hcnt. apply list_lookup_insert_eq. by eapply lookup_lt_Some. }
  destruct (bool_decide (max_steps (self r) - 1 <= c)) eqn:Hdone.
  - apply bool_decide_eq_true in Hdone.
    assert (n = 1%nat) as Hn by lia.
    do 3 eexists. split; [reflexivity |]. cbn.
    rewrite !length_app, !one_rollout_per_dictionary. unfold list_times.
    rewrite !length_replicate, Hn. simpl.
    repeat split; try lia. rewrite Hc1. f_equal.
  - apply bool_decide_eq_false in Hdone.
    set (final := if np_mod_is_zero (c + 1) (horizon (self r))
                  then (random_sample (np_random r)
                          (length (parameters (self r)))).1
                  else update_rule (svpg_max_step_length (self r)) v action)
      in *.
    match goal with
    | |- context [particle_loop _ _ _ _ _ ?acc1 r1] =>
        match type of Hp1 with
        | _ = Some ?pl1 =>
            destruct (IH r1 p' final (c + 1) pl1 acc1)
              as (acc' & p'' & r' & Hloop & Hs & Ha & Hr & Hi & Hn1 & Hn2
                  & Hn3 & Hc')
        end
    end.
    + rewrite Hips. apply list_lookup_insert_eq. by eapply lookup_lt_Some.
    + exact Hc1.
    + exact Hp1.
    + by rewrite (nominal_same_configuration _ _ Hcfg).
    + rewrite Hpar. unfold final. destruct (np_mod_is_zero _ _).
      * apply random_sample_length.
      * rewrite length_update_rule; congruence.
    + rewrite Hmax. lia.
    + exists acc', p'', r'. split; [exact Hloop |].
      rewrite Hmax, Htraj in *. cbn in Hs, Ha, Hr, Hi, Hn1, Hn2, Hn3.
      rewrite !length_app, ?one_rollout_per_dictionary in *.
      unfold list_times in *. rewrite ?length_replicate in *. simpl in *.
      replace n with (S (Z.to_nat (Z.max 1 (max_steps (self r) - (c + 1)))))
        by lia.
      repeat split; try lia. rewrite Hc'. f_equal. lia.
Qed.

(** X19. The rollout of one particle in [ADR.step] ends: after [reset(i)] the
    loop calls [step] exactly [max(1, max_steps)] times, and collects that
    many states, actions, rewards and infos and [num_trajs] randomized and
    reference rollouts for each call. *)
Theorem rollout_particle_steps (fuel : nat) (i : nat) (r : Runtime) (p : P)
    (v : list float) (c : Z) (pl : Pool) (nom : list float)
    (rand_before ref_before : list StepSequence) :
  inner_parameter_state (self r) !! i = Some v ->
  count (self r) !! i = Some c ->
  pool (self r) = Some pl ->
  nominal (self r) = Ok nom ->
  length v = length (parameters (self r)) ->
  let n := Z.to_nat (Z.max 1 (max_steps (self r))) in
  (n <= fuel)%nat ->
  exists acc p' r',
    rollout_particle expl_strat fuel (Z.of_nat i) p rand_before ref_before r
    = (Ok (Some (acc, p')), r') /\
    length (states acc) = n /\
    length (pr_actions acc) = n /\
    length (pr_rewards acc) = n /\
    length (infos acc) = n /\
    length (rand_trajs_now acc) = (n * Z.to_nat (num_trajs (self r)))%nat /\
    length (rand_trajs acc)
    = (length rand_before + n * Z.to_nat (num_trajs (self r)))%nat /\
    length (ref_trajs acc)
    = (length ref_before + n * Z.to_nat (num_trajs (self r)))%nat /\
    count (self r') !! i = Some (Z.max 1 (max_steps (self r))).
Proof.
  intros Hv Hc Hp Hnom Hlv n Hfuel.
  destruct (reset_particle_run random_sample_length r i v c Hv Hc Hlv)
    as (fresh & r0 & Hreset & Hv0 & Hlf & Hc0 & Hcfg & Hp0).
  pose proof Hcfg as (_ & Hpar & _ & _ & Htraj & _ & _ & Hmax & _).
  unfold rollout_particle. rewrite (bind_run _ _ _ _ _ Hreset).
  match goal with
  | |- context [particle_loop _ _ _ _ _ ?acc0 r0] =>
      destruct (particle_loop_run i nom fuel r0 p fresh 0 pl acc0)
        as (acc & p' & r' & Hloop & Hs & Ha & Hr & Hi & Hn1 & Hn2 & Hn3 & Hc')
  end.
  - exact Hv0.
  - exact Hc0.
  - congruence.
  - by rewrite (nominal_same_configuration _ _ Hcfg).
  - congruence.
  - rewrite Hmax, Z.sub_0_r. exact Hfuel.
  - rewrite Hmax, Htraj, Z.sub_0_r in *. fold n in Hs, Ha, Hr, Hi, Hn1, Hn2, Hn3.
    exists acc, p', r'. split; [exact Hloop |]. simpl in *.
    repeat split; try done. rewrite Hc'. f_equal. lia.
Qed.

End ParticleProperties.

End AlgorithmProperties.

(** * Properties of the WAM environments *)

Section StepBasedProperties.

Import WAMBallInCupRealStepBased.

Lemma item_negative {A} (l : list A) (i : Z) :
  - Z.of_nat (length l) <= i < 0 ->
  item l i = match l !! Z.to_nat (i + Z.of_nat (length l)) with
             | Some x => Returns x
             | None => Fails WamIndexError
             end.
Proof.
  intros Hi. unfold item, getitem, np_index.
  rewrite decide_False, decide_True by lia.
  by destruct (l !! _).
Qed.

Lemma item_negative_is_Some {A} (l : list A) (i : Z) :
  - Z.of_nat (length l) <= i < 0 -> exists x, item l i = Returns x.
Proof.
  intros Hi. rewrite item_negative by done.
  destruct (lookup_lt_is_Some_2 l (Z.to_nat (i + Z.of_nat (length l))))
    as [x ->]; [lia | eauto].
Qed.

Lemma item_app_r {A} (l1 l2 : list A) (i : Z) (x : A) :
  - Z.of_nat (length l2) <= i < 0 ->
  l2 !! Z.to_nat (i + Z.of_nat (length l2)) = Some x ->
  item (l1 ++ l2) i = Returns x.
Proof.
  intros Hi Hx. rewrite item_negative by (rewrite length_app; lia).
  rewrite length_app, lookup_app_r by lia.
  replace (Z.to_nat (i + Z.of_nat (length l1 + length l2)) - length l1)%nat
    with (Z.to_nat (i + Z.of_nat (length l2))) by lia.
  by rewrite Hx.
Qed.

(** X20. [observe] of the step-based WAM environment returns a vector with as
    many entries as [obs_space] has lower bounds, upper bounds and labels,
    when [max_steps] is not zero and the state has the three (ball) or six
    (cup) entries it reads. *)
Theorem observe_fits_obs_space (self : Self) (state : list Q) :
  max_steps self <> 0 ->
  (observe_ball self = true -> (3 <= length state)%nat) ->
  (observe_cup self = true -> (6 <= length state)%nat) ->
  exists obs,
    observe self state = Returns obs /\
    length obs = length (bound_lo (obs_space self)) /\
    length obs = length (bound_up (obs_space self)) /\
    length obs = length (labels (obs_space self)).
Proof.
  intros Hmax Hball Hcup. unfold observe, normalized_time, obs_space.
  rewrite (proj2 (Z.eqb_neq _ _) Hmax).
  destruct (observe_ball self), (observe_cup self).
  - specialize (Hcup eq_refl).
    destruct (item_negative_is_Some state (-3)) as [x1 ->]; [lia |].
    destruct (item_negative_is_Some state (-1)) as [x2 ->]; [lia |].
    destruct (item_negative_is_Some state (-6)) as [x3 ->]; [lia |].
    destruct (item_negative_is_Some state (-4)) as [x4 ->]; [lia |].
    eexists. done.
  - specialize (Hball eq_refl).
    destruct (item_negative_is_Some state (-3)) as [x1 ->]; [lia |].
    destruct (item_negative_is_Some state (-1)) as [x2 ->]; [lia |].
    eexists. done.
  - specialize (Hcup eq_refl).
    destruct (item_negative_is_Some state (-6)) as [x3 ->]; [lia |].
    destruct (item_negative_is_Some state (-4)) as [x4 ->]; [lia |].
    eexists. done.
  - eexists. done.
Qed.

(** X21. On the state that [step] assembles (joints, then ball, then cup),
    [observe] returns the time followed by: ball x and z when only the ball is
    observed; cup x and z and then ball x and z when both are observed; the
    third-last and the last joint entry when only the cup is observed. *)
Theorem observe_layout (self : Self) (qpos qvel : list Q)
    (bx by_ bz cx cy cz : Q) (t : Q) :
  normalized_time self = Returns t ->
  let state :=
    assemble_state self qpos qvel [bx; by_; bz] [cx; cy; cz] in
  (observe_ball self = true -> observe_cup self = false ->
   observe self state = Returns [t; bx; bz]) /\
  (observe_ball self = true -> observe_cup self = true ->
   observe self state = Returns [t; cx; cz; bx; bz]) /\
  (observe_ball self = false -> observe_cup self = false ->
   observe self state = Returns [t]) /\
  (observe_ball self = false -> observe_cup self = true ->
   forall joints v3 v2 v1,
     qpos ++ qvel = joints ++ [v3; v2; v1] ->
     observe self state = Returns [t; v3; v1]).
Proof.
  intros Ht state. subst state. unfold observe, assemble_state.
  rewrite Ht. repeat split; intros -> ->;
    [| | | intros joints v3 v2 v1 ->; rewrite <- (app_assoc joints)].
  4: { rewrite (item_app_r joints ([v3; v2; v1] ++ [cx; cy; cz]) (-6) v3)
         by (done || simpl; lia).
       rewrite (item_app_r joints ([v3; v2; v1] ++ [cx; cy; cz]) (-4) v1)
         by (done || simpl; lia).
       done. }
  - rewrite (item_app_r (qpos ++ qvel) [bx; by_; bz] (-3) bx)
      by (done || simpl; lia).
    rewrite (item_app_r (qpos ++ qvel) [bx; by_; bz] (-1) bz)
      by (done || simpl; lia).
    done.
  - rewrite <- (app_assoc (qpos ++ qvel) [bx; by_; bz] [cx; cy; cz]).
    rewrite (item_app_r (qpos ++ qvel) ([bx; by_; bz] ++ [cx; cy; cz]) (-3) cx)
      by (done || simpl; lia).
    rewrite (item_app_r (qpos ++ qvel) ([bx; by_; bz] ++ [cx; cy; cz]) (-1) cz)
      by (done || simpl; lia).
    rewrite (item_app_r (qpos ++ qvel) ([bx; by_; bz] ++ [cx; cy; cz]) (-6) bx)
      by (done || simpl; lia).
    rewrite (item_app_r (qpos ++ qvel) ([bx; by_; bz] ++ [cx; cy; cz]) (-4) bz)
      by (done || simpl; lia).
    done.
  - done.
Qed.

Lemma item_elem_of {A} (l : list A) (i : Z) (x : A) :
  item l i = Returns x -> x ∈ l.
Proof.
  unfold item, getitem. destruct (np_index _ _) as [n |]; [| done].
  destruct (l !! n) as [y |] eqn:Hy; [| done].
  intros [= <-]. by eapply list_elem_of_lookup_2.
Qed.

(** X22. With [0 <= curr_step <= max_steps] and a state within [-3, 3], every
    observation that [observe] returns lies within the bounds of [obs_space].
    *)
Theorem observe_within_bounds (self : Self) (state obs : list Q) :
  0 <= curr_step self <= max_steps self ->
  Forall (fun x => (-3 <= x)%Q /\ (x <= 3)%Q) state ->
  observe self state = Returns obs ->
  Forall2 Qle (bound_lo (obs_space self)) obs /\
  Forall2 Qle obs (bound_up (obs_space self)).
Proof.
  intros Hstep Hstate. unfold observe, normalized_time, obs_space.
  destruct (Z.eqb_spec (max_steps self) 0) as [| Hmax]; [done |].
  assert ((0 <= inject_Z (curr_step self) / inject_Z (max_steps self))%Q
          /\ (inject_Z (curr_step self) / inject_Z (max_steps self)
              <= 1)%Q) as [Hlo Hhi].
  { assert (0 < inject_Z (max_steps self))%Q as Hpos.
    { change 0%Q with (inject_Z 0). rewrite <- Zlt_Qlt. lia. }
    split.
    - apply Qle_shift_div_l; [done |]. rewrite Qmult_0_l.
      change 0%Q with (inject_Z 0). rewrite <- Zle_Qle. lia.
    - apply Qle_shift_div_r; [done |]. rewrite Qmult_1_l.
      rewrite <- Zle_Qle. lia. }
  assert (forall i x, item state i = Returns x -> (-3 <= x)%Q /\ (x <= 3)%Q)
    as Hitem.
  { intros i x Hx%item_elem_of.
    by apply (proj1 (Forall_forall _ _) Hstate). }
  destruct (observe_ball self), (observe_cup self);
    repeat match goal with
           | |- context [item state ?i] =>
               let H := fresh "H" in
               destruct (item state i) eqn:H; [apply Hitem in H | done]
           end;
    intros [= <-]; simpl; split; repeat constructor; tauto.
Qed.

End StepBasedProperties.

Section EpisodicProperties.

Import WAMBallInCupRealEpisodic.

Lemma set_item_row_nat (m : list (list Q)) (n : nat) (row val : list Q) :
  m !! n = Some row -> length val = length row ->
  set_item_row m (Z.of_nat n) val = Returns (<[n := val]> m).
Proof.
  intros Hrow Hlen. unfold set_item_row.
  rewrite np_index_nat by (by eapply lookup_lt_Some).
  by rewrite Hrow, assign_row_same_length.
Qed.

Lemma item_nat {A} (l : list A) (n : nat) (x : A) :
  l !! n = Some x -> item l (Z.of_nat n) = Returns x.
Proof. intros Hx. unfold item. by rewrite (getitem_nat _ _ _ Hx). Qed.

Lemma callback_run (self : Self) (jg : JointGroup) (n : nat)
    (rp rv dpos dvel : list Q) :
  curr_step_rr self = Some (Z.of_nat n) ->
  Z.of_nat n < max_steps self ->
  qpos_real self !! n = Some rp -> length (pos jg) = length rp ->
  qvel_real self !! n = Some rv -> length (vel jg) = length rv ->
  qpos_des self !! n = Some dpos ->
  qvel_des self !! n = Some dvel ->
  callback self jg
  = (Returns false,
     {| max_steps := max_steps self;
        curr_step_rr := Some (Z.of_nat n + 1);
        qpos_des := qpos_des self;
        qvel_des := qvel_des self;
        qpos_real := <[n := pos jg]> (qpos_real self);
        qvel_real := <[n := vel jg]> (qvel_real self) |},
     {| pos := pos jg; vel := vel jg;
        des_pos := dpos; des_vel := dvel |}).
Proof.
  intros Hrr Hn Hrp Hlp Hrv Hlv Hdp Hdv. unfold callback.
  rewrite Hrr, bool_decide_eq_false_2 by lia.
  rewrite (set_item_row_nat _ _ _ _ Hrp Hlp). simpl.
  rewrite (set_item_row_nat _ _ _ _ Hrv Hlv). simpl.
  by rewrite (item_nat _ _ _ Hdp), (item_nat _ _ _ Hdv).
Qed.

Lemma run_callbacks_replay (d : nat) (jgs : list JointGroup) :
  forall (self : Self) (n0 : nat),
    curr_step_rr self = Some (Z.of_nat n0) ->
    Z.of_nat (n0 + length jgs) <= max_steps self ->
    (n0 + length jgs <= length (qpos_des self))%nat ->
    (n0 + length jgs <= length (qvel_des self))%nat ->
    (n0 + length jgs <= length (qpos_real self))%nat ->
    (n0 + length jgs <= length (qvel_real self))%nat ->
    Forall (fun row => length row = d) (qpos_real self) ->
    Forall (fun row => length row = d) (qvel_real self) ->
    Forall (fun jg => length (pos jg) = d /\ length (vel jg) = d) jgs ->
    exists outs self',
      run_callbacks self jgs = (outs, self') /\
      length outs = length jgs /\
      curr_step_rr self' = Some (Z.of_nat (n0 + length jgs)) /\
      max_steps self' = max_steps self /\
      qpos_des self' = qpos_des self /\
      qvel_des self' = qvel_des self /\
      length (qpos_real self') = length (qpos_real self) /\
      length (qvel_real self') = length (qvel_real self) /\
      (forall j, (j < n0)%nat ->
         qpos_real self' !! j = qpos_real self !! j /\
         qvel_real self' !! j = qvel_real self !! j) /\
      (forall k jg,
         jgs !! k = Some jg ->
         exists dpos dvel,
           qpos_des self !! (n0 + k)%nat = Some dpos /\
           qvel_des self !! (n0 + k)%nat = Some dvel /\
           outs !! k
           = Some (Returns false,
                   {| pos := pos jg; vel := vel jg;
                      des_pos := dpos; des_vel := dvel |}) /\
           qpos_real self' !! (n0 + k)%nat = Some (pos jg) /\
           qvel_real self' !! (n0 + k)%nat = Some (vel jg)).
Proof.
  induction jgs as [| jg jgs IH];
    intros self n0 Hrr Hmax Hl1 Hl2 Hl3 Hl4 Hw1 Hw2 Hjgs.
  - exists [], self. simpl. rewrite Nat.add_0_r. repeat split; try done.
  - simpl in Hmax, Hl1, Hl2, Hl3, Hl4.
    apply Forall_cons in Hjgs as [[Hwp Hwv] Hjgs].
    destruct (lookup_lt_is_Some_2 (qpos_real self) n0) as [rp Hrp]; [lia |].
    destruct (lookup_lt_is_Some_2 (qvel_real self) n0) as [rv Hrv]; [lia |].
    destruct (lookup_lt_is_Some_2 (qpos_des self) n0) as [dp Hdp]; [lia |].
    destruct (lookup_lt_is_Some_2 (qvel_des self) n0) as [dv Hdv]; [lia |].
    pose proof (Forall_lookup_1 _ _ _ _ Hw1 Hrp) as Hlrp.
    pose proof (Forall_lookup_1 _ _ _ _ Hw2 Hrv) as Hlrv. simpl in Hlrp, Hlrv.
    cbn [run_callbacks].
    rewrite (callback_run self jg n0 rp rv dp dv Hrr)
      by (lia || congruence || done).
    match goal with
    | |- context [run_callbacks ?s jgs] =>
        destruct (IH s (S n0))
          as (outs & self' & Hrun & Hlen & Hrr' & Hmax' & Hd1 & Hd2 & Hlr1
              & Hlr2 & Hold & Hnew)
    end; simpl.
    + f_equal. lia.
    + lia.
    + lia.
    + lia.
    + rewrite length_insert. lia.
    + rewrite length_insert. lia.
    + apply Forall_insert; done.
    + apply Forall_insert; done.
    + exact Hjgs.
    + rewrite Hrun. simpl in *. do 2 eexists. split; [reflexivity |].
      split; [simpl; lia |].
      split; [rewrite Hrr'; f_equal; lia |].
      split; [done |]. split; [done |]. split; [done |].
      split; [by rewrite Hlr1, length_insert |].
      split; [by rewrite Hlr2, length_insert |]. split.
      * intros j Hj. destruct (Hold j) as [H1 H2]; [lia |].
        rewrite H1, H2, !list_lookup_insert_ne by lia. done.
      * intros [| k] jg' Hjg'; simpl in Hjg'.
        -- injection Hjg' as <-. rewrite Nat.add_0_r.
           exists dp, dv. split; [done |]. split; [done |].
           split; [done |]. destruct (Hold n0) as [H1 H2]; [lia |].
           rewrite H1, H2, !list_lookup_insert_eq by lia. done.
        -- destruct (Hnew k jg' Hjg') as (dpos & dvel & H1 & H2 & H3 & H4 & H5).
           replace (n0 + S k)%nat with (S n0 + k)%nat by lia.
           exists dpos, dvel. done.
Qed.

(** X23. Called [max_steps] times from step zero, the callback of the episodic
    WAM environment returns [False] each time, sets the desired joint position
    and velocity of call [k] to row [k] of [qpos_des] and [qvel_des], and
    records the measured ones; every later call returns [True] and changes
    nothing. *)
Theorem callbacks_replay (d : nat) (self : Self) (jgs : list JointGroup) :
  curr_step_rr self = Some 0 ->
  Z.of_nat (length jgs) = max_steps self ->
  length (qpos_des self) = length jgs ->
  length (qvel_des self) = length jgs ->
  length (qpos_real self) = length jgs ->
  length (qvel_real self) = length jgs ->
  Forall (fun row => length row = d) (qpos_real self) ->
  Forall (fun row => length row = d) (qvel_real self) ->
  Forall (fun jg => length (pos jg) = d /\ length (vel jg) = d) jgs ->
  exists outs self',
    run_callbacks self jgs = (outs, self') /\
    outs
    = zip_with
        (fun jg des =>
           (Returns false,
            {| pos := pos jg; vel := vel jg;
               des_pos := des.1; des_vel := des.2 |}))
        jgs (zip (qpos_des self) (qvel_des self)) /\
    qpos_real self' = map pos jgs /\
    qvel_real self' = map vel jgs /\
    qpos_des self' = qpos_des self /\
    qvel_des self' = qvel_des self /\
    forall jg, callback self' jg = (Returns true, self', jg).
Proof.
  intros Hrr Hmax Hl1 Hl2 Hl3 Hl4 Hw1 Hw2 Hjgs.
  destruct (run_callbacks_replay d jgs self 0)
    as (outs & self' & Hrun & Hlen & Hrr' & Hmax' & Hd1 & Hd2 & Hlr1 & Hlr2
        & _ & Hnew);
    try done; try lia.
  exists outs, self'. split; [exact Hrun |]. split.
  { apply list_eq. intros k. rewrite lookup_zip_with.
    destruct (jgs !! k) as [jg |] eqn:Hjg; simpl.
    - destruct (Hnew k jg Hjg) as (dpos & dvel & H1 & H2 & H3 & _).
      simpl in H1, H2. rewrite H3.
      rewrite lookup_zip_with, H1. simpl. by rewrite H2.
    - apply lookup_ge_None. apply lookup_ge_None in Hjg. lia. }
  split.
  { apply list_eq. intros k. rewrite list_lookup_fmap.
    destruct (jgs !! k) as [jg |] eqn:Hjg; simpl.
    - by destruct (Hnew k jg Hjg) as (dpos & dvel & _ & _ & _ & H4 & _).
    - apply lookup_ge_None. apply lookup_ge_None in Hjg. lia. }
  split.
  { apply list_eq. intros k. rewrite list_lookup_fmap.
    destruct (jgs !! k) as [jg |] eqn:Hjg; simpl.
    - by destruct (Hnew k jg Hjg) as (dpos & dvel & _ & _ & _ & _ & H5).
    - apply lookup_ge_None. apply lookup_ge_None in Hjg. lia. }
  split; [done |]. split; [done |].
  intros jg. unfold callback. rewrite Hrr'.
  by rewrite bool_decide_eq_true_2 by lia.
Qed.

End EpisodicProperties.

(** * Concrete runs of the further properties *)

Lemma demo_one_rollout_per_dictionary (p : @Pool demo) (e : @Env demo)
    (pi : @Policy demo) (ds : list (gmap string float)) :
  length (@eval_domain_params demo p e pi ds).1 = length ds.
Proof. simpl. apply length_map. Qed.

Lemma reset_all_fresh_witness :
  exists m r',
    reset (W := demo) None None None demo_runtime = (Ok m, r') /\
    inner_parameter_state (self r') = m /\
    length m = 2%nat /\
    Forall (fun row => length row = 2%nat /\ Forall in_unit row) m /\
    count (self r') = [0; 0] /\
    horizon_count (self r') = 0 /\
    same_configuration demo_adapter (self r') /\
    pool (self r') = Some 0%nat /\
    dispatched r' = [].
Proof.
  apply (reset_all_fresh (W := demo) demo_random_sample_length
           demo_random_sample_range demo_runtime).
Defined.

Lemma reset_particle_to_witness :
  exists r',
    reset (W := demo) (Some 1) (Some [Num 1; Num 0]) None demo_runtime
    = (Ok [Num 1; Num 0], r') /\
    inner_parameter_state (self r')
    = [[Num (3 # 10); Num (9 # 10)]; [Num 1; Num 0]] /\
    count (self r') = [0; 0] /\
    horizon_count (self r') = 0 /\
    same_configuration demo_adapter (self r') /\
    pool (self r') = Some 0%nat /\
    np_random r' = 0%nat /\
    dispatched r' = [].
Proof.
  apply (reset_particle_to (W := demo) demo_runtime 1 [Num 1; Num 0]
           [Num (1 # 4); Num (1 # 5)] 0); reflexivity.
Defined.

Lemma reset_particle_wrong_width_witness :
  reset (W := demo) (Some 1) (Some [Num 1; Num 0; Num 1]) None demo_runtime
  = (Raise ValueError,
     on_self (with_count (<[1%nat := 0]> [0; 0])) demo_runtime).
Proof.
  apply (reset_particle_wrong_width (W := demo) demo_runtime 1
           [Num 1; Num 0; Num 1] [Num (1 # 4); Num (1 # 5)] 0);
    (reflexivity || (simpl; lia)).
Defined.

Lemma index_out_of_range_witness :
  (forall act, step (W := demo) act (Some 2) demo_runtime
               = (Raise IndexError, demo_runtime)) /\
  (forall init_state,
     reset (W := demo) (Some (-3)) init_state None demo_runtime
     = (Raise IndexError, demo_runtime)).
Proof.
  split.
  - apply (proj1 (index_out_of_range (W := demo) demo_runtime 2)).
    simpl. lia.
  - apply (proj2 (index_out_of_range (W := demo) demo_runtime (-3))).
    simpl. lia.
Defined.

Lemma step_wrong_action_width_witness :
  step (W := demo) [Num 1; Num 1; Num 1] (Some 0) demo_runtime
  = (Raise ValueError, demo_runtime).
Proof.
  apply (step_wrong_action_width (W := demo) demo_runtime 0
           [Num 1; Num 1; Num 1] [Num (3 # 10); Num (9 # 10)]);
    (reflexivity || (simpl; lia)).
Defined.

Lemma step_dispatches_witness :
  let row :=
    update_rule (Num (1 # 100)) [Num (3 # 10); Num (9 # 10)]
      [Num 2; Num (-1 # 2)] in
  let d_rand :=
    array_to_dict (W := demo) demo_adapter
      (zip_with fmul (map (fun x => (x + Num (1 # 2))%np) row)
         [Num 2; Num 3]) in
  exists d_nom next_state reward done info r',
    step (W := demo) [Num 2; Num (-1 # 2)] (Some 0) demo_runtime
    = (Ok (next_state, reward, done, info), r') /\
    nominal_dict demo_adapter = Ok d_nom /\
    dispatched r' = [] ++ [list_times d_rand 1; list_times d_nom 1] /\
    length (rand info) = 1%nat /\
    length (ref info) = 1%nat.
Proof.
  apply (step_dispatches (W := demo) demo_random_sample_length
           demo_rollouts_preprocessable demo_one_rollout_per_dictionary
           demo_runtime 0 [Num 2; Num (-1 # 2)]
           [Num (3 # 10); Num (9 # 10)] 0 0%nat [Num 2; Num 3]);
    reflexivity.
Defined.


Lemma reset_then_step_witness :
  exists r1 reward info r2,
    reset (W := demo) (Some 0) (Some [Num 1; Num 0]) None demo_runtime
    = (Ok [Num 1; Num 0], r1) /\
    step (W := demo) [Num 1; Num (-1)] (Some 0) r1
    = (Ok (update_rule (Num (1 # 100)) [Num 1; Num 0] [Num 1; Num (-1)], reward,
           bool_decide (4 <= 1), info), r2) /\
    count (self r2) !! 0%nat = Some 1.
Proof.
  apply (reset_then_step (W := demo) demo_random_sample_length
           demo_rollouts_preprocessable
           demo_runtime 0 [Num 1; Num 0] [Num 1; Num (-1)]
           [Num (3 # 10); Num (9 # 10)] 0 0%nat
           [Num 2; Num 3]); (reflexivity || (simpl; lia)).
Defined.

Lemma eval_states_frame_witness :
  let out :=
    eval_states (W := demo) [[Num (1 # 2); Num (1 # 2)]] demo_runtime in
  inner_parameter_state (self out.2) = inner_parameter_state demo_adapter /\
  count (self out.2) = count demo_adapter /\
  horizon_count (self out.2) = horizon_count demo_adapter /\
  same_configuration demo_adapter (self out.2) /\
  np_random out.2 = np_random demo_runtime.
Proof.
  intros out.
  apply (eval_states_frame (W := demo) [[Num (1 # 2); Num (1 # 2)]]
           demo_runtime out.2
           out.1).
  apply surjective_pairing.
Defined.

Lemma eval_states_run_witness :
  exists rewards rand ref d_nom r',
    eval_states (W := demo) [[Num (1 # 2); Num (1 # 2)]; [Num 0; Num 1]]
      demo_runtime
    = (Ok (rewards, rand, ref), r') /\
    length rewards = 2%nat /\
    length rand = 2%nat /\
    length ref = 2%nat /\
    nominal_dict demo_adapter = Ok d_nom /\
    dispatched r'
    = [] ++ [concat
               (map (fun state =>
                       list_times
                         (array_to_dict demo_adapter
                            (zip_with fmul
                               (map (fun x => (x + Num (1 # 2))%np) state)
                               [Num 2; Num 3])) 1)
                  [[Num (1 # 2); Num (1 # 2)]; [Num 0; Num 1]]);
             list_times d_nom (1 * 2)].
Proof.
  apply (eval_states_run (W := demo) demo_rollouts_preprocessable
           demo_one_rollout_per_dictionary
           [[Num (1 # 2); Num (1 # 2)]; [Num 0; Num 1]] demo_runtime 0%nat
           [Num 2; Num 3]).
  - reflexivity.
  - reflexivity.
  - repeat constructor.
Defined.

Lemma init_ready_witness :
  exists r,
    init (W := demo) demo_env demo_parameters tt demo_reward_generator 2
      (Num (1 # 100)) 2 1 1 4 0%nat
    = Ok r /\
    length (inner_parameter_state (self r)) = 2%nat /\
    Forall (fun row => length row = 2%nat /\ Forall in_unit row)
      (inner_parameter_state (self r)) /\
    count (self r) = [0; 0] /\
    horizon_count (self r) = 0 /\
    dispatched r = [] /\
    forall (i : nat) (act : list float),
      (i < 2)%nat ->
      length act = 2%nat ->
      exists out r', step act (Some (Z.of_nat i)) r = (Ok out, r').
Proof.
  apply (init_ready (W := demo) demo_random_sample_length
           demo_random_sample_range demo_rollouts_preprocessable
           demo_env demo_parameters tt demo_reward_generator 2
           (Num (1 # 100)) 2 1
           1 4 0%nat 0%nat).
  - reflexivity.
  - exact demo_nominal_available.
Defined.

Lemma train_returns_computed_loss_witness :
  exists l rg',
    train (W := demo) (demo_rollout ∅) (demo_rollout ∅) 1
      demo_reward_generator
    = (Ok (Some l), rg') /\
    logger rg' = Some [("discriminator_loss", Some l)].
Proof.
  apply (train_returns_computed_loss (W := demo) (demo_rollout ∅)
           (demo_rollout ∅) 1 demo_reward_generator).
  - apply Forall_singleton. unfold preprocessable. simpl. lia.
  - apply Forall_singleton. unfold preprocessable. simpl. lia.
  - discriminate.
  - discriminate.
  - lia.
Defined.

Lemma preprocess_rollout_returns_iff_witness :
  (exists feats,
     preprocess_rollout (PyStepSequence (demo_rollout ∅)) = Ok feats /\
     length feats = 2%nat) /\
  preprocess_rollout
    (PyStepSequence
       {| observations := [[Num 0]; [Num 1]; [Num 2]]; actions := [[Num 1]];
          rewards := [] |})
  = Raise RuntimeError.
Proof.
  split.
  - apply (proj1 (preprocess_rollout_returns_iff (demo_rollout ∅))).
    unfold preprocessable. simpl. lia.
  - apply (proj2 (preprocess_rollout_returns_iff
                    {| observations := [[Num 0]; [Num 1]; [Num 2]];
                       actions := [[Num 1]]; rewards := [] |})).
    unfold preprocessable. simpl. lia.
Defined.

Lemma demo_params_NoDup : NoDup (params (W := demo) demo_adapter).
Proof. by apply (bool_decide_unpack _). Qed.

Lemma array_to_dict_lookup_witness :
  (forall j k x,
     params demo_adapter !! j = Some k -> [Num 7] !! j = Some x ->
     array_to_dict demo_adapter [Num 7] !! k = Some x) /\
  (forall j k,
     params demo_adapter !! j = Some k -> (1 <= j)%nat ->
     array_to_dict demo_adapter [Num 7] !! k = None).
Proof.
  apply (array_to_dict_lookup (W := demo) demo_adapter [Num 7]).
  exact demo_params_NoDup.
Defined.

Lemma missing_nominal_value_witness :
  nominal demo_adapter_missing = Raise (KeyError "x") /\
  nominal_dict demo_adapter_missing = Raise (KeyError "x") /\
  forall (r : Runtime) (i : nat) (act v : list float),
    self r = demo_adapter_missing ->
    inner_parameter_state demo_adapter_missing !! i = Some v ->
    length act = length v ->
    step act (Some (Z.of_nat i)) r
    = (Raise (KeyError "x"),
       on_self
         (with_inner_parameter_state
            (<[i := update_rule (Num (1 # 100)) v act]>
               [[Num (3 # 10); Num (9 # 10)]])) r).
Proof.
  apply (missing_nominal_value (W := demo) demo_adapter_missing ["m"] []
           "x").
  - reflexivity.
  - apply Forall_singleton. eexists. reflexivity.
  - reflexivity.
Defined.

Lemma shape_is_kept_witness :
  let out := step (W := demo) [Num 2; Num (-1 # 2)] (Some 0) demo_runtime in
  length <$> inner_parameter_state (self out.2) = [2%nat; 2%nat] /\
  length (count (self out.2)) = 2%nat.
Proof.
  intros out.
  apply (proj1 (shape_is_kept (W := demo) 0 demo_runtime out.2)
           [Num 2; Num (-1 # 2)] out.1).
  apply surjective_pairing.
Defined.

Lemma configuration_is_kept_witness :
  let out := reset (W := demo) None None None demo_runtime in
  same_configuration demo_adapter (self out.2).
Proof.
  intros out.
  apply (proj2 (configuration_is_kept (W := demo) demo_runtime out.2)
           None None None out.1).
  apply surjective_pairing.
Defined.

Lemma compute_params_agrees_witness :
  compute_params (W := demo) demo_adapter
    [[[Num (1 # 2); Num (1 # 2)]; [Num 0; Num 1]]] 0
  = Ok (map (fun sim_instance =>
               array_to_dict demo_adapter
                 (zip_with fmul
                    (map (fun x => (x + Num (1 # 2))%np) sim_instance)
                    [Num 2; Num 3]))
          [[Num (1 # 2); Num (1 # 2)]; [Num 0; Num 1]]).
Proof.
  apply (compute_params_agrees (W := demo) demo_adapter
           [[[Num (1 # 2); Num (1 # 2)]; [Num 0; Num 1]]] 0
           [[Num (1 # 2); Num (1 # 2)]; [Num 0; Num 1]]
           [Num 2; Num 3]).
  - exact demo_params_NoDup.
  - reflexivity.
  - reflexivity.
  - discriminate.
  - repeat constructor.
Defined.

Lemma rollout_particle_steps_witness :
  exists acc p' r',
    rollout_particle (W := demo) demo_expl_strat 4 (Z.of_nat 0) 0%nat [] []
      demo_runtime
    = (Ok (Some (acc, p')), r') /\
    length (states acc) = 4%nat /\
    length (pr_actions acc) = 4%nat /\
    length (pr_rewards acc) = 4%nat /\
    length (infos acc) = 4%nat /\
    length (rand_trajs_now acc) = 4%nat /\
    length (rand_trajs acc) = 4%nat /\
    length (ref_trajs acc) = 4%nat /\
    count (self r') !! 0%nat = Some 4.
Proof.
  apply (rollout_particle_steps (W := demo) demo_random_sample_length
           demo_rollouts_preprocessable demo_one_rollout_per_dictionary
           demo_expl_strat (fun p s => length_map _ s)
           4 0 demo_runtime 0%nat [Num (3 # 10); Num (9 # 10)] 0 0%nat
           [Num 2; Num 3]
           [] []); (reflexivity || (simpl; lia)).
Defined.

Section StepBasedRuns.

Import WAMBallInCupRealStepBased.

Lemma observe_fits_obs_space_witness :
  exists obs,
    observe demo_wam
      [0%Q; 0%Q; 1 # 10; 2 # 10; 3 # 10; 4 # 10; 5 # 10; 6 # 10]
    = Returns obs /\
    length obs = 5%nat /\ length obs = 5%nat /\ length obs = 5%nat.
Proof.
  apply (observe_fits_obs_space demo_wam
           [0%Q; 0%Q; 1 # 10; 2 # 10; 3 # 10; 4 # 10; 5 # 10; 6 # 10]).
  - discriminate.
  - intros _. simpl. lia.
  - intros _. simpl. lia.
Defined.

Lemma observe_layout_witness :
  observe demo_wam
    (assemble_state demo_wam [0%Q] [0%Q]
       [1 # 10; 2 # 10; 3 # 10] [4 # 10; 5 # 10; 6 # 10])
  = Returns [(inject_Z 1 / inject_Z 4)%Q; 4 # 10; 6 # 10; 1 # 10; 3 # 10].
Proof.
  apply (proj1 (proj2 (observe_layout demo_wam [0%Q] [0%Q]
                         (1 # 10) (2 # 10) (3 # 10) (4 # 10) (5 # 10)
                         (6 # 10) (inject_Z 1 / inject_Z 4)%Q eq_refl)));
    reflexivity.
Defined.

Lemma observe_within_bounds_witness :
  Forall2 Qle (bound_lo (obs_space demo_wam))
    [(inject_Z 1 / inject_Z 4)%Q; 4 # 10; 6 # 10; 1 # 10; 3 # 10] /\
  Forall2 Qle
    [(inject_Z 1 / inject_Z 4)%Q; 4 # 10; 6 # 10; 1 # 10; 3 # 10]
    (bound_up (obs_space demo_wam)).
Proof.
  apply (observe_within_bounds demo_wam
           [0%Q; 0%Q; 1 # 10; 2 # 10; 3 # 10; 4 # 10; 5 # 10; 6 # 10]).
  - simpl. lia.
  - repeat constructor; discriminate.
  - reflexivity.
Defined.

End StepBasedRuns.

Section EpisodicRuns.

Import WAMBallInCupRealEpisodic.

Lemma callbacks_replay_witness :
  exists outs self',
    run_callbacks demo_episodic demo_joint_groups
    = (outs, self') /\
    outs
    = zip_with
        (fun jg des =>
           (Returns false,
            {| pos :=
                 pos jg;
               vel :=
                 vel jg;
               des_pos := des.1;
               des_vel := des.2 |}))
        demo_joint_groups
        (zip (qpos_des demo_episodic)
             (qvel_des demo_episodic)) /\
    qpos_real self'
    = map pos demo_joint_groups /\
    qvel_real self'
    = map vel demo_joint_groups /\
    qpos_des self'
    = qpos_des demo_episodic /\
    qvel_des self'
    = qvel_des demo_episodic /\
    forall jg,
      callback self' jg = (Returns true, self', jg).
Proof.
  apply (callbacks_replay 2 demo_episodic demo_joint_groups);
    try reflexivity; repeat constructor.
Defined.

End EpisodicRuns.
